(** * web_app.py: the data-loading pipeline

    A shallow embedding of [parse_text_log] and of the loading stage of
    [generate_visualizations] (src/web_app.py), with the properties of the
    text-log grammar, the format dispatch and the error handling.

    Python [str] values are lists of Unicode code points.  The library
    functions the source calls on them ([strip], [split], [in], [lower]) are
    modelled after CPython; the parsers that live outside the repository
    ([float], [json.load], [pandas.read_csv]) are parameters, bundled in a
    [library] record. *)

From Stdlib Require Import List NArith ZArith Bool Lia Sorted.
From Stdlib.Strings Require Import String Ascii Byte.
Import ListNotations.

Local Open Scope string_scope.
Local Open Scope list_scope.

(** ** Python strings *)

(** A code point. *)
Abbreviation char := N.

Abbreviation str := (list N).

Definition LF : char := 10%N.
Definition CR : char := 13%N.
Definition TAB : char := 9%N.
Definition BACKSLASH : char := 92%N.
Definition COLON : char := 58%N.

(** Reads a literal the way Python reads ['...']: the escapes [\n], [\r],
    [\t] and [\\] stand for one code point, any other backslash is kept. *)
Fixpoint unescape (l : list ascii) : str :=
  match l with
  | [] => []
  | a :: r =>
      if Ascii.eqb a "\" then
        match r with
        | c :: r' =>
            if Ascii.eqb c "n" then LF :: unescape r'
            else if Ascii.eqb c "r" then CR :: unescape r'
            else if Ascii.eqb c "t" then TAB :: unescape r'
            else if Ascii.eqb c "\" then BACKSLASH :: unescape r'
            else BACKSLASH :: unescape r
        | [] => [BACKSLASH]
        end
      else N_of_ascii a :: unescape r
  end.

Definition py (s : string) : str := unescape (list_ascii_of_string s).

Fixpoint str_eqb (s t : str) : bool :=
  match s, t with
  | [], [] => true
  | a :: s', b :: t' => N.eqb a b && str_eqb s' t'
  | _, _ => false
  end.

(** [str.isspace] for one code point: CPython's [_Py_ascii_whitespace] table
    below 128 and [_PyUnicode_IsWhitespace] above. *)
Definition isspace (c : char) : bool :=
  ((9 <=? c) && (c <=? 13) || (28 <=? c) && (c <=? 32)
   || (c =? 133) || (c =? 160) || (c =? 5760)
   || (8192 <=? c) && (c <=? 8202)
   || (c =? 8232) || (c =? 8233) || (c =? 8239) || (c =? 8287)
   || (c =? 12288))%N.

Fixpoint lstrip (s : str) : str :=
  match s with
  | c :: s' => if isspace c then lstrip s' else s
  | [] => []
  end.

Definition rstrip (s : str) : str := rev (lstrip (rev s)).

(** [s.strip()] *)
Definition strip (s : str) : str := rstrip (lstrip s).

(** [s.lower()] on the code points whose lower case is ASCII: the letters
    [A]-[Z], the Kelvin sign and the dotted capital I.  Other cased letters
    are left in place; their lower case is outside ASCII as well, so every
    comparison of the source, which is against an ASCII word, is decided as
    in CPython. *)
Definition lower_char (c : char) : str :=
  (if (65 <=? c) && (c <=? 90) then [c + 32]
   else if c =? 8490 then [107]
   else if c =? 304 then [105; 775]
   else [c])%N.

Definition lower (s : str) : str := flat_map lower_char s.

Fixpoint starts_with (p s : str) : bool :=
  match p, s with
  | [], _ => true
  | a :: p', b :: s' => N.eqb a b && starts_with p' s'
  | _ :: _, [] => false
  end.

(** The text before and after the leftmost occurrence of [sep] in [s]. *)
Fixpoint cut (sep s : str) {struct s} : option (str * str) :=
  if starts_with sep s then Some ([], skipn (List.length sep) s)
  else
    match s with
    | [] => None
    | c :: s' =>
        match cut sep s' with
        | Some (a, b) => Some (c :: a, b)
        | None => None
        end
    end.

(** [needle in hay] *)
Definition contains (needle hay : str) : bool :=
  match cut needle hay with Some _ => true | None => false end.

(** [s.split(sep, maxsplit)]: at most [maxsplit] cuts, leftmost first.  The
    source passes non-empty separators only (Python raises on an empty one). *)
Fixpoint splitn (maxsplit : nat) (sep s : str) : list str :=
  match maxsplit with
  | O => [s]
  | S m =>
      match cut sep s with
      | None => [s]
      | Some (a, b) => a :: splitn m sep b
      end
  end.

(** [s.split(sep)]: no bound on the cuts; a string of [n] code points holds
    at most [n] occurrences of a separator. *)
Definition split (sep s : str) : list str := splitn (List.length s) sep s.

(** [sep.join(parts)] *)
Fixpoint join (sep : str) (parts : list str) : str :=
  match parts with
  | [] => []
  | [p] => p
  | p :: rest => p ++ sep ++ join sep rest
  end.

(** ** Exceptions *)

Inductive exn_class :=
| OSError
| UnicodeDecodeError
| ValueError
| IndexError
| OtherException.

(** An exception object: its class and [str(e)].  Only subclasses of
    [Exception] are modelled. *)
Record exn := Exn { exn_cls : exn_class; exn_str : str }.

Inductive result (A : Type) :=
| Ok (a : A)
| Raise (e : exn).

Arguments Ok {A} a.
Arguments Raise {A} e.

Definition bind {A B} (m : result A) (k : A -> result B) : result B :=
  match m with
  | Ok a => k a
  | Raise e => Raise e
  end.

Notation "x <- m ;; k" := (bind m (fun x => k))
  (at level 61, m at next level, right associativity).

(** [try: body  except ...: handler] for a handler that catches everything
    the body can raise. *)
Definition try_except {A} (body : result A) (handler : exn -> result A) : result A :=
  match body with
  | Ok a => Ok a
  | Raise e => handler e
  end.

(** [l[i]] *)
Definition item {A} (l : list A) (i : nat) : result A :=
  match nth_error l i with
  | Some x => Ok x
  | None => Raise (Exn IndexError (py "list index out of range"))
  end.

(** ** Python values, dicts and frames *)

(** The values that reach a frame; [F] is the type of Python floats. *)
#[warnings="-register-all"] Inductive pyval (F : Type) :=
| PNone
| PBool (b : bool)
| PInt (n : Z)
| PFloat (x : F)
| PStr (s : str)
| PList (l : list (pyval F))
| PDict (d : list (str * pyval F)).

Arguments PNone {F}.
Arguments PBool {F} b.
Arguments PInt {F} n.
Arguments PFloat {F} x.
Arguments PStr {F} s.
Arguments PList {F} l.
Arguments PDict {F} d.

(** A [dict] with [str] keys, in insertion order. *)
Definition dict (F : Type) := list (str * pyval F).

(** [d[k] = v]: an existing key keeps its place. *)
Fixpoint dict_set {F} (k : str) (v : pyval F) (d : dict F) : dict F :=
  match d with
  | [] => [(k, v)]
  | (k', v') :: d' =>
      if str_eqb k k' then (k, v) :: d' else (k', v') :: dict_set k v d'
  end.

(** [d.get(k)] *)
Fixpoint dict_get {F} (k : str) (d : dict F) : option (pyval F) :=
  match d with
  | [] => None
  | (k', v') :: d' => if str_eqb k k' then Some v' else dict_get k d'
  end.

(** [k in d] *)
Definition dict_has {F} (k : str) (d : dict F) : bool :=
  match dict_get k d with Some _ => true | None => false end.

(** [pd.DataFrame(rows)]: the frame is kept as the rows it was built from. *)
Inductive frame (F : Type) :=
| DataFrame (rows : list (pyval F)).

Arguments DataFrame {F} rows.

Definition frame_rows {F} (df : frame F) : list (pyval F) :=
  match df with DataFrame rows => rows end.

(** The parsers the source calls and does not define.  [pd_DataFrame] is
    [pd.DataFrame] on the list made from the value of a JSON file: the value
    is arbitrary, and pandas raises on some lists (a mapping followed by a
    number, for one).  The rows of a text log are mappings with text keys
    built by this module, which [pd.DataFrame] takes as they are. *)
Record library (F : Type) := {
  py_float : str -> result F;                 (* float(s) *)
  json_loads : str -> result (pyval F);       (* json.load on the text of a file *)
  read_csv : list byte -> result (frame F);   (* pd.read_csv on the bytes of a file *)
  pd_DataFrame : list (pyval F) -> result (frame F)  (* pd.DataFrame on a list from JSON *)
}.

Arguments py_float {F} l s.
Arguments json_loads {F} l s.
Arguments read_csv {F} l bs.
Arguments pd_DataFrame {F} l rows.

(** ** Reading a file in text mode *)

(** What [open] finds at a path: the bytes of the file, or the exception. *)
Definition filesystem := str -> result (list byte).

Definition is_cont (b : byte) : bool :=
  let n := Byte.to_N b in ((128 <=? n) && (n <=? 191))%N.

Definition cont_bits (b : byte) : N := (Byte.to_N b - 128)%N.

(** The strict UTF-8 codec: no overlong forms, no surrogates, nothing above
    U+10FFFF.  [None] stands for [UnicodeDecodeError]. *)
Fixpoint utf8_decode (bs : list byte) : option str :=
  match bs with
  | [] => Some []
  | b0 :: r0 =>
      let n0 := Byte.to_N b0 in
      if (n0 <? 128)%N then option_map (cons n0) (utf8_decode r0)
      else if ((194 <=? n0) && (n0 <=? 223))%N then
        match r0 with
        | b1 :: r1 =>
            if is_cont b1
            then option_map (cons ((n0 - 192) * 64 + cont_bits b1)%N) (utf8_decode r1)
            else None
        | [] => None
        end
      else if ((224 <=? n0) && (n0 <=? 239))%N then
        match r0 with
        | b1 :: b2 :: r2 =>
            let cp := ((n0 - 224) * 4096 + cont_bits b1 * 64 + cont_bits b2)%N in
            if is_cont b1 && is_cont b2 && (2048 <=? cp)%N
               && negb ((55296 <=? cp) && (cp <=? 57343))%N
            then option_map (cons cp) (utf8_decode r2)
            else None
        | _ => None
        end
      else if ((240 <=? n0) && (n0 <=? 244))%N then
        match r0 with
        | b1 :: b2 :: b3 :: r3 =>
            let cp := ((n0 - 240) * 262144 + cont_bits b1 * 4096
                       + cont_bits b2 * 64 + cont_bits b3)%N in
            if is_cont b1 && is_cont b2 && is_cont b3
               && (65536 <=? cp)%N && (cp <=? 1114111)%N
            then option_map (cons cp) (utf8_decode r3)
            else None
        | _ => None
        end
      else None
  end.

(** Universal newlines ([newline=None]): [\r\n] and a lone [\r] are read as
    [\n]. *)
Fixpoint translate_newlines (s : str) : str :=
  match s with
  | [] => []
  | c :: r =>
      if N.eqb c CR then
        LF :: match r with
              | d :: r' => if N.eqb d LF then translate_newlines r' else translate_newlines r
              | [] => []
              end
      else c :: translate_newlines r
  end.

(** [with open(filepath, 'r', encoding='utf-8') as f: content = f.read()] *)
Definition read_text (fs : filesystem) (filepath : str) : result str :=
  bytes <- fs filepath ;;
  match utf8_decode bytes with
  | Some s => Ok (translate_newlines s)
  | None => Raise (Exn UnicodeDecodeError (py "'utf-8' codec can't decode byte"))
  end.

(** ** parse_text_log *)

Section TextLog.

Context {F : Type} (lib : library F).

(** [line.split(':', 1)[1]] *)
Definition after_colon (line : str) : result str :=
  item (splitn 1 (py ":") line) 1.

Definition truthy : list str := [py "true"; py "1"; py "yes"; py "success"].

(** The body of [for line in block.split('\n')]. *)
Definition process_line (test : dict F) (line0 : str) : result (dict F) :=
  let line := strip line0 in
  if contains (py "Model:") line || contains (py "model:") line then
    v <- after_colon line ;;
    Ok (dict_set (py "model") (PStr (strip v)) test)
  else if contains (py "Category:") line || contains (py "category:") line then
    v <- after_colon line ;;
    Ok (dict_set (py "category") (PStr (strip v)) test)
  else if contains (py "Language:") line || contains (py "language:") line then
    v <- after_colon line ;;
    Ok (dict_set (py "language") (PStr (strip v)) test)
  else if contains (py "Temperature:") line || contains (py "temperature:") line then
    try_except
      (v <- after_colon line ;;
       x <- py_float lib (strip v) ;;
       Ok (dict_set (py "temperature") (PFloat x) test))
      (fun _ => Ok test)
  else if contains (py "Success:") line || contains (py "success:") line then
    v <- after_colon line ;;
    let val := lower (strip v) in
    Ok (dict_set (py "success")
          (PInt (if existsb (str_eqb val) truthy then 1 else 0)) test)
  else Ok test.

Fixpoint for_lines (lines : list str) (test : dict F) : result (dict F) :=
  match lines with
  | [] => Ok test
  | line :: rest => test' <- process_line test line ;; for_lines rest test'
  end.

(** One pass of [for block in blocks] up to the [if] that keeps the record. *)
Definition parse_block (block : str) : result (dict F) :=
  for_lines (split (py "\n") block) [].

(** [[b.strip() for b in content.split('\n\n') if b.strip()]] *)
Definition blocks (content : str) : list str :=
  map strip
    (filter (fun b => negb (str_eqb (strip b) [])) (split (py "\n\n") content)).

Definition keep (test : dict F) : bool :=
  dict_has (py "model") test && dict_has (py "category") test.

Fixpoint for_blocks (bs : list str) (data : list (dict F)) : result (list (dict F)) :=
  match bs with
  | [] => Ok data
  | block :: rest =>
      test <- parse_block block ;;
      for_blocks rest (if keep test then data ++ [test] else data)
  end.

(** [pd.DataFrame(data) if data else None] *)
Definition frame_or_none (data : list (dict F)) : option (frame F) :=
  match data with
  | [] => None
  | _ => Some (DataFrame (map PDict data))
  end.

Definition parse_text_log (fs : filesystem) (filepath : str) : result (option (frame F)) :=
  try_except
    (content <- read_text fs filepath ;;
     data <- for_blocks (blocks content) [] ;;
     Ok (frame_or_none data))
    (fun e => Ok None).

End TextLog.

(** ** generate_visualizations: loading the data *)

(** A [pathlib.Path]: the path it was built from and its [suffix]. *)
Record Path := { path_str : str; suffix : str }.

(** The global [current_status]. *)
Record status := Status {
  running : bool;
  progress : Z;
  message : str;
  output_dir : option str;
  charts : list str;
  tables : list str;
  error : option str
}.

Definition set_running (b : bool) (st : status) : status :=
  Status b (progress st) (message st) (output_dir st) (charts st) (tables st) (error st).

Definition set_progress (p : Z) (st : status) : status :=
  Status (running st) p (message st) (output_dir st) (charts st) (tables st) (error st).

Definition set_message (m : str) (st : status) : status :=
  Status (running st) (progress st) m (output_dir st) (charts st) (tables st) (error st).

Definition set_error (e : option str) (st : status) : status :=
  Status (running st) (progress st) (message st) (output_dir st) (charts st) (tables st) e.

Fixpoint digits_of_uint (u : Decimal.uint) : str :=
  match u with
  | Decimal.Nil => []
  | Decimal.D0 u' => 48%N :: digits_of_uint u'
  | Decimal.D1 u' => 49%N :: digits_of_uint u'
  | Decimal.D2 u' => 50%N :: digits_of_uint u'
  | Decimal.D3 u' => 51%N :: digits_of_uint u'
  | Decimal.D4 u' => 52%N :: digits_of_uint u'
  | Decimal.D5 u' => 53%N :: digits_of_uint u'
  | Decimal.D6 u' => 54%N :: digits_of_uint u'
  | Decimal.D7 u' => 55%N :: digits_of_uint u'
  | Decimal.D8 u' => 56%N :: digits_of_uint u'
  | Decimal.D9 u' => 57%N :: digits_of_uint u'
  end.

Fixpoint commas (ds : str) : str :=
  match ds with
  | a :: b :: c :: ((_ :: _) as r) => a :: b :: c :: 44%N :: commas r
  | _ => ds
  end.

(** [f'{n:,}'] *)
Definition format_thousands (n : nat) : str :=
  rev (commas (rev (digits_of_uint (Nat.to_uint n)))).

Section Generate.

Context {F : Type} (lib : library F).

(** [data if isinstance(data, list) else [data]] *)
Definition json_rows (data : pyval F) : list (pyval F) :=
  match data with
  | PList l => l
  | _ => [data]
  end.

(** The [# Load data] step: the frame, or the exception that leaves it. *)
Definition load_data (fs : filesystem) (filepath : Path) : result (frame F) :=
  if str_eqb (lower (suffix filepath)) (py ".csv") then
    bytes <- fs (path_str filepath) ;;
    read_csv lib bytes
  else if str_eqb (lower (suffix filepath)) (py ".json") then
    content <- read_text fs (path_str filepath) ;;
    data <- json_loads lib content ;;
    pd_DataFrame lib (json_rows data)
  else if str_eqb (lower (suffix filepath)) (py ".txt") then
    df <- parse_text_log lib fs (path_str filepath) ;;
    match df with
    | None => Raise (Exn ValueError (py "Failed to parse text file"))
    | Some df => Ok df
    end
  else Raise (Exn ValueError (py "Unsupported file type: " ++ suffix filepath)).

(** [render] stands for the rest of the [try] block, from the creation of
    the output directory to the final message: the calls into
    [visualization_engine], which is outside the repository's sources. *)
Definition generate_visualizations
    (fs : filesystem) (render : frame F -> status -> result unit * status)
    (filepath : Path) (current_status : status) : status :=
  let st1 :=
    set_error None
      (set_message (py "Loading data...")
         (set_progress 5 (set_running true current_status))) in
  let '(r, st2) :=
    match load_data fs filepath with
    | Raise e => (Raise e, st1)
    | Ok df =>
        render df
          (set_message
             (py "Loaded " ++ format_thousands (List.length (frame_rows df)) ++ py " records")
             (set_progress 10 st1))
    end in
  let st3 :=
    match r with
    | Ok _ => st2
    | Raise e => set_message (py "Error: " ++ exn_str e) (set_error (Some (exn_str e)) st2)
    end in
  set_running false st3.

End Generate.

(** ** A library to run the examples with *)

Module Sample.

(** A decimal literal: sign, digits read as one number, digits after the
    point. *)
Inductive dec := Dec (negative : bool) (digits : N) (scale : nat).

Definition is_digit (c : char) : bool := ((48 <=? c) && (c <=? 57))%N.

Fixpoint read_digits (s : str) (acc : N) (count : nat) : N * nat * str :=
  match s with
  | c :: r => if is_digit c then read_digits r (acc * 10 + (c - 48))%N (S count) else (acc, count, s)
  | [] => (acc, count, [])
  end.

(** [float] on plain decimal literals: an optional sign, digits, an optional
    point and digits, surrounded by white space.  CPython's grammar also has
    exponents, [inf], [nan], underscores and non-ASCII digits, which the
    examples do not use. *)
Definition float_decimal (s0 : str) : result dec :=
  let s := strip s0 in
  let '(neg, s1) :=
    match s with
    | c :: r => if (c =? 45)%N then (true, r) else if (c =? 43)%N then (false, r) else (false, s)
    | [] => (false, [])
    end in
  let '(ip, ni, s2) := read_digits s1 0%N 0 in
  let '(fp, nf, s3) :=
    match s2 with
    | c :: r => if (c =? 46)%N then read_digits r ip 0 else (ip, 0, s2)
    | [] => (ip, 0, [])
    end in
  if Nat.ltb 0 (ni + nf) && str_eqb s3 []
  then Ok (Dec neg fp nf)
  else Raise (Exn ValueError (py "could not convert string to float: '" ++ s0 ++ py "'")).

(** [json.load] on a text that is one unsigned integer. *)
Definition json_integer (s0 : str) : result (pyval dec) :=
  let '(n, k, rest) := read_digits (strip s0) 0%N 0 in
  if Nat.ltb 0 k && str_eqb rest []
  then Ok (PInt (Z.of_N n))
  else Raise (Exn ValueError (py "Expecting value")).

(** [pd.read_csv] is not run by the examples. *)
Definition csv_unread (bs : list byte) : result (frame dec) :=
  Raise (Exn OtherException (py "read_csv")).

Definition is_mapping (v : pyval dec) : bool :=
  match v with PDict _ => true | _ => false end.

Definition is_scalar (v : pyval dec) : bool :=
  match v with PBool _ | PInt _ | PFloat _ | PStr _ => true | _ => false end.

(** [pd.DataFrame] on the lists the examples use: a list of mappings gives
    one row for each mapping, a list of numbers and strings one row for each
    of them.  Mixed and nested lists are not run by the examples and are
    refused here; pandas takes some of them and raises on others. *)
Definition frame_of_list (rows : list (pyval dec)) : result (frame dec) :=
  if forallb is_mapping rows || forallb is_scalar rows then Ok (DataFrame rows)
  else Raise (Exn OtherException (py "pd.DataFrame")).

Definition lib : library dec :=
  {| py_float := float_decimal; json_loads := json_integer; read_csv := csv_unread;
     pd_DataFrame := frame_of_list |}.

(** The bytes of an ASCII text. *)
Definition bytes_of (s : str) : list byte :=
  map (fun c => match Byte.of_N c with Some b => b | None => x00 end) s.

(** A file system with one file. *)
Definition one_file (name : str) (bs : list byte) : filesystem :=
  fun p => if str_eqb p name then Ok bs
           else Raise (Exn OSError (py "[Errno 2] No such file or directory")).

(** A file system with one file, given by its text. *)
Definition text_file (name text : str) : filesystem := one_file name (bytes_of text).

(** A renderer that does nothing. *)
Definition no_render (df : frame dec) (st : status) : result unit * status := (Ok tt, st).

Definition Ready : status :=
  Status false 0 (py "Ready") None [] [] None.

End Sample.

(** ** The vocabulary of the properties *)

(** The five fields of the text-log grammar, in the order of the [if]/[elif]
    chain of [parse_text_log]. *)
Inductive field := Model | Category | Language | Temperature | Success.

Definition key (f : field) : str :=
  match f with
  | Model => py "model"
  | Category => py "category"
  | Language => py "language"
  | Temperature => py "temperature"
  | Success => py "success"
  end.

(** The two spellings the source looks for, colon included. *)
Definition capitalised (f : field) : str :=
  match f with
  | Model => py "Model:"
  | Category => py "Category:"
  | Language => py "Language:"
  | Temperature => py "Temperature:"
  | Success => py "Success:"
  end.

Definition lowercase (f : field) : str :=
  match f with
  | Model => py "model:"
  | Category => py "category:"
  | Language => py "language:"
  | Temperature => py "temperature:"
  | Success => py "success:"
  end.

(** The line holds one of the two spellings of the label. *)
Definition matches (f : field) (line : str) : bool :=
  contains (capitalised f) line || contains (lowercase f) line.

(** The line holds the label in some casing (the reading of the
    specification, which the source does not implement). *)
Definition matches_any_casing (f : field) (line : str) : bool :=
  contains (lowercase f) (lower line).

Definition rank (f : field) : nat :=
  match f with
  | Model => 0
  | Category => 1
  | Language => 2
  | Temperature => 3
  | Success => 4
  end.

Definition precedence : list field := [Model; Category; Language; Temperature; Success].

(** The first field, in the order of precedence, whose label the line holds. *)
Definition chosen (line : str) : option field :=
  find (fun f => matches f line) precedence.

Definition field_eqb (f g : field) : bool := Nat.eqb (rank f) (rank g).

(** The text after the first colon of a line, trimmed. *)
Definition value_text (line : str) : str :=
  match cut [COLON] line with
  | Some (_, b) => strip b
  | None => []
  end.

(** The value a field takes from the trimmed text after the colon; none when
    a temperature does not parse. *)
Definition field_value {F} (lib : library F) (f : field) (v : str) : option (pyval F) :=
  match f with
  | Model | Category | Language => Some (PStr v)
  | Temperature =>
      match py_float lib v with
      | Ok x => Some (PFloat x)
      | Raise _ => None
      end
  | Success => Some (PInt (if existsb (str_eqb (lower v)) truthy then 1 else 0))
  end.

(** What one line does to the record of its block. *)
Definition apply_line {F} (lib : library F) (test : dict F) (line0 : str) : dict F :=
  let line := strip line0 in
  match chosen line with
  | Some f =>
      match field_value lib f (value_text line) with
      | Some v => dict_set (key f) v test
      | None => test
      end
  | None => test
  end.

(** The record of a block and the records that are kept, as values. *)
Definition record {F} (lib : library F) (block : str) : dict F :=
  fold_left (apply_line lib) (split [LF] block) [].

Definition records {F} (lib : library F) (content : str) : list (dict F) :=
  filter keep (map (record lib) (blocks content)).

(** Some line of the block is read as field [f]. *)
Definition has_line (f : field) (block : str) : bool :=
  existsb (fun l => match chosen (strip l) with Some g => field_eqb f g | None => false end)
          (split [LF] block).

(** The temperature a line gives, if it is a temperature line that parses. *)
Definition temperature_of {F} (lib : library F) (l : str) : list F :=
  match chosen (strip l) with
  | Some Temperature =>
      match py_float lib (value_text (strip l)) with
      | Ok x => [x]
      | Raise _ => []
      end
  | _ => []
  end.

(** The temperatures read from the lines of a block, in order. *)
Definition parsed_temperatures {F} (lib : library F) (block : str) : list F :=
  flat_map (temperature_of lib) (split [LF] block).

Definition last_opt {A} (l : list A) : option A :=
  match rev l with
  | x :: _ => Some x
  | [] => None
  end.

(** *** Blocks, read from the lines of the file *)

(** The maximal runs of lines between separator lines: the run that starts at
    the head of the list, and the later ones. *)
Definition push (cur : list str) (rest : list (list str)) : list (list str) :=
  match cur with
  | [] => rest
  | _ => cur :: rest
  end.

Fixpoint runs_from (sepl : str -> bool) (lines : list str) : list str * list (list str) :=
  match lines with
  | [] => ([], [])
  | l :: r =>
      let '(cur, rest) := runs_from sepl r in
      if sepl l then ([], push cur rest) else (l :: cur, rest)
  end.

Definition runs (sepl : str -> bool) (lines : list str) : list (list str) :=
  let '(cur, rest) := runs_from sepl lines in push cur rest.

Definition is_empty (l : str) : bool := str_eqb l [].

(** A blank line has no content but white space. *)
Definition blank (l : str) : bool := forallb isspace l.

Definition nonempty (s : str) : bool := negb (str_eqb s []).

Definition block_text (run : list str) : str := strip (join [LF] run).

(** A run: lines, at least one, none of them a separator. *)
Definition is_run (sepl : str -> bool) (R : list str) : Prop :=
  R <> [] /\ Forall (fun l => sepl l = false) R.

(** The blocks in the words of the specification: the runs of lines between
    blank lines, each trimmed. *)
Definition spec_blocks (content : str) : list str :=
  map block_text (runs blank (split [LF] content)).

(** ** allowed_file *)

(** The text before and after the rightmost occurrence of [sep] in [s]. *)
Definition rcut (sep s : str) : option (str * str) :=
  match cut (rev sep) (rev s) with
  | Some (a, b) => Some (rev b, rev a)
  | None => None
  end.

(** [s.rsplit(sep, maxsplit)]: at most [maxsplit] cuts, rightmost first. *)
Fixpoint rsplitn (maxsplit : nat) (sep s : str) : list str :=
  match maxsplit with
  | O => [s]
  | S m =>
      match rcut sep s with
      | None => [s]
      | Some (a, b) => rsplitn m sep a ++ [b]
      end
  end.

Definition DOT : char := 46%N.

(** The set literal [{'csv', 'json', 'txt'}]. *)
Definition allowed_extensions : list str := [py "csv"; py "json"; py "txt"].

(** ['.' in filename and filename.rsplit('.', 1)[1].lower() in {...}] *)
Definition allowed_file (filename : str) : result bool :=
  if contains (py ".") filename then
    ext <- item (rsplitn 1 (py ".") filename) 1 ;;
    Ok (existsb (str_eqb (lower ext)) allowed_extensions)
  else Ok false.

(** The suffix of the path is one that [generate_visualizations] has a
    branch for. *)
Definition supported (filepath : Path) : bool :=
  existsb (str_eqb (lower (suffix filepath))) [py ".csv"; py ".json"; py ".txt"].

(** ** generate_visualizations, statement by statement *)

Definition set_output_dir (d : option str) (st : status) : status :=
  Status (running st) (progress st) (message st) d (charts st) (tables st) (error st).

Definition set_charts (l : list str) (st : status) : status :=
  Status (running st) (progress st) (message st) (output_dir st) l (tables st) (error st).

Definition set_tables (l : list str) (st : status) : status :=
  Status (running st) (progress st) (message st) (output_dir st) (charts st) l (error st).

(** [str(Path("thesis_visualizations") / f"session_{timestamp}")] *)
Definition session_dir (timestamp : str) : str :=
  py "thesis_visualizations/session_" ++ timestamp.

(** [str(n)] *)
Definition decimal (n : nat) : str := digits_of_uint (Nat.to_uint n).

Section Job.

Context {F W : Type}.

(** What the function calls outside the module, on a world [W] that holds
    the clock and the output directory: [datetime.now().strftime], [mkdir],
    [glob] (the matches, as paths relative to the directory) and the
    functions of [visualization_engine]. *)
Record engine := {
  strftime_now : W -> str;
  mkdir : str -> W -> result unit * W;
  glob : str -> str -> W -> result (list str) * W;
  create_linear_progression_charts : frame F -> str -> W -> result unit * W;
  create_enhanced_temperature_analysis : frame F -> str -> W -> result unit * W;
  create_temperature_heatmaps : frame F -> str -> W -> result unit * W;
  create_2d_temperature_language_comparison : frame F -> str -> W -> result unit * W;
  create_enhanced_bar_charts : frame F -> str -> W -> result unit * W;
  create_pie_charts : frame F -> str -> W -> result unit * W;
  create_model_language_heatmap : frame F -> str -> W -> result unit * W;
  create_category_language_heatmap : frame F -> str -> W -> result unit * W;
  create_analysis_summary_dashboard : frame F -> str -> W -> result unit * W;
  create_comparison_tables : frame F -> str -> W -> result unit * W;
  create_temperature_comparison_table : frame F -> str -> W -> result unit * W;
  create_model_specific_category_tables : frame F -> str -> W -> result unit * W;
  create_model_specific_temperature_language_analysis : frame F -> str -> W -> result unit * W;
  create_models_temperature_language_summary : frame F -> str -> W -> result unit * W;
  create_detailed_model_language_comparison : frame F -> str -> W -> result unit * W;
  create_simple_html_report : frame F -> str -> list str -> list str -> W -> result unit * W
}.

(** The state of a run: [current_status], the values it has had, latest
    first (what a client that polls [/status] can see), and the world. *)
Record jstate := JState { cur : status; seen : list status; world : W }.

(** A piece of the function: it may raise, and it changes the state. *)
Definition job (A : Type) := jstate -> result A * jstate.

Definition jret {A} (a : A) : job A := fun s => (Ok a, s).

Definition jbind {A B} (m : job A) (k : A -> job B) : job B :=
  fun s =>
    match m s with
    | (Ok a, s') => k a s'
    | (Raise e, s') => (Raise e, s')
    end.

(** [current_status[key] = value] *)
Definition write (f : status -> status) : job unit :=
  fun s => (Ok tt, JState (f (cur s)) (f (cur s) :: seen s) (world s)).

(** [current_status] read *)
Definition read : job status := fun s => (Ok (cur s), s).

(** A call that leaves the module. *)
Definition call {A} (f : W -> result A * W) : job A :=
  fun s => let '(r, w) := f (world s) in (r, JState (cur s) (seen s) w).

Definition lift {A} (r : result A) : job A := fun s => (r, s).

(** [try: body  except Exception as e: print(...)] *)
Definition swallow (body : job unit) : job unit :=
  fun s =>
    match body s with
    | (Ok _, s') => (Ok tt, s')
    | (Raise _, s') => (Ok tt, s')
    end.

(** [try: body  except Exception as e: handler] *)
Definition handle (body : job unit) (handler : exn -> job unit) : job unit :=
  fun s =>
    match body s with
    | (Ok a, s') => (Ok a, s')
    | (Raise e, s') => handler e s'
    end.

(** [try: body  finally: final] *)
Definition finally (body final : job unit) : job unit :=
  fun s =>
    match body s with
    | (r, s') =>
        match final s' with
        | (Ok _, s'') => (r, s'')
        | (Raise e, s'') => (Raise e, s'')
        end
    end.

End Job.

Arguments engine : clear implicits.
Arguments jstate : clear implicits.
Arguments job : clear implicits.

Notation "x <~ m ;; k" := (jbind m (fun x => k))
  (at level 61, m at next level, right associativity).
Notation "m ;;; k" := (jbind m (fun _ => k))
  (at level 61, right associativity).

Section Stages.

Context {F W : Type} (lib : library F) (eng : engine F W).

(** One numbered step: the message, the progress, and the calls under their
    own [try]. *)
Definition stage (msg : str) (p : Z) (body : job W unit) : job W unit :=
  write (set_message msg) ;;;
  write (set_progress p) ;;;
  swallow body.

(** From [# Create output directory] to the end of the outer [try] block. *)
Definition render_job (df : frame F) : job W unit :=
  timestamp <~ call (fun w => (Ok (strftime_now eng w), w)) ;;
  let output_dir := session_dir timestamp in
  call (mkdir eng output_dir) ;;;
  write (set_output_dir (Some output_dir)) ;;;
  write (set_progress 15) ;;;
  stage (py "Generating linear progression charts...") 20
    (call (create_linear_progression_charts eng df output_dir)) ;;;
  stage (py "Generating temperature analysis...") 30
    (call (create_enhanced_temperature_analysis eng df output_dir) ;;;
     call (create_temperature_heatmaps eng df output_dir) ;;;
     call (create_2d_temperature_language_comparison eng df output_dir)) ;;;
  stage (py "Generating bar charts...") 40
    (call (create_enhanced_bar_charts eng df output_dir)) ;;;
  stage (py "Generating pie charts...") 50
    (call (create_pie_charts eng df output_dir)) ;;;
  stage (py "Generating heatmaps...") 60
    (call (create_model_language_heatmap eng df output_dir) ;;;
     call (create_category_language_heatmap eng df output_dir)) ;;;
  stage (py "Generating dashboard...") 70
    (call (create_analysis_summary_dashboard eng df output_dir)) ;;;
  stage (py "Generating statistical tables...") 80
    (call (create_comparison_tables eng df output_dir) ;;;
     call (create_temperature_comparison_table eng df output_dir) ;;;
     call (create_model_specific_category_tables eng df output_dir)) ;;;
  stage (py "Generating model-specific analysis...") 90
    (call (create_model_specific_temperature_language_analysis eng df output_dir) ;;;
     call (create_models_temperature_language_summary eng df output_dir) ;;;
     call (create_detailed_model_language_comparison eng df output_dir)) ;;;
  stage (py "Generating HTML report...") 95
    (pngs <~ call (glob eng output_dir (py "**/*.png")) ;;
     csvs <~ call (glob eng output_dir (py "**/*.csv")) ;;
     call (create_simple_html_report eng df output_dir pngs csvs)) ;;;
  pngs <~ call (glob eng output_dir (py "**/*.png")) ;;
  write (set_charts pngs) ;;;
  csvs <~ call (glob eng output_dir (py "**/*.csv")) ;;
  write (set_tables csvs) ;;;
  write (set_progress 100) ;;;
  st <~ read ;;
  write (set_message
           (py "Complete! Generated " ++ decimal (List.length (charts st))
            ++ py " charts and " ++ decimal (List.length (tables st)) ++ py " tables")).

(** The whole of [generate_visualizations]. *)
Definition generate_job (fs : filesystem) (filepath : Path) : job W unit :=
  finally
    (handle
       (write (set_running true) ;;;
        write (set_progress 5) ;;;
        write (set_message (py "Loading data...")) ;;;
        write (set_error None) ;;;
        df <~ lift (load_data lib fs filepath) ;;
        write (set_progress 10) ;;;
        write (set_message
                 (py "Loaded " ++ format_thousands (List.length (frame_rows df))
                  ++ py " records")) ;;;
        render_job df)
       (fun e =>
          write (set_error (Some (exn_str e))) ;;;
          write (set_message (py "Error: " ++ exn_str e))))
    (write (set_running false)).

(** [render_job] as the [render] of [generate_visualizations], on a world. *)
Definition render_of (w0 : W) (df : frame F) (st : status) : result unit * status :=
  let '(r, s) := render_job df (JState st [] w0) in (r, cur s).

(** The values [current_status] takes during a run, in order. *)
Definition trace (fs : filesystem) (filepath : Path) (st : status) (w0 : W) : list status :=
  rev (seen (snd (generate_job fs filepath (JState st [] w0)))).

End Stages.

(** ** The routes that read or reset the status *)

Inductive response :=
| Text (body : str) (code : nat)
| JsonError (msg : str) (code : nat)               (* jsonify({'error': msg}), code *)
| JsonSuccess (msg : str)                          (* jsonify({'success': True, 'message': msg}) *)
| JsonStatus (st : status)                         (* jsonify(current_status) *)
| SendFromDirectory (directory filename : str) (as_attachment : bool).

(** The truth value of [current_status['output_dir']]. *)
Definition truthy_dir (d : option str) : option str :=
  match d with
  | Some (c :: r) => Some (c :: r)
  | _ => None
  end.

Definition get_status (current_status : status) : response := JsonStatus current_status.

Definition get_chart (filename : str) (current_status : status) : response :=
  match truthy_dir (output_dir current_status) with
  | Some d => SendFromDirectory d filename false
  | None => Text (py "No output directory") 404
  end.

Definition download_file (filename : str) (current_status : status) : response :=
  match truthy_dir (output_dir current_status) with
  | Some d => SendFromDirectory d filename true
  | None => Text (py "No output directory") 404
  end.

(** [reset]: the new status and the response. *)
Definition reset (current_status : status) : status * response :=
  (Status false 0 (py "Ready") None [] [] None, JsonSuccess (py "Reset complete")).

(** ** upload_file *)

(** An entry of [request.files]. *)
Record upload := { filename : str; data : list byte }.

(** What [upload_file] calls outside the module, on a world [U] that holds
    the request, the clock, the upload folder and the threads.
    [request_files] is the first use of [request.files] with the look-up of
    ['file'] in it: it parses the body of the request, and raises when the
    body is larger than [MAX_CONTENT_LENGTH] (a 413) or cannot be read. *)
Record web (U : Type) := {
  request_files : U -> result (option upload) * U;
  secure_filename : str -> str;
  upload_stamp : U -> str;                              (* datetime.now().strftime *)
  make_uploads_dir : U -> result unit * U;              (* uploads_dir.mkdir(exist_ok=True) *)
  save : str -> str -> list byte -> U -> result unit * U; (* file.save(uploads_dir / name) *)
  start_thread : str -> str -> U -> result unit * U
    (* threading.Thread(target=generate_visualizations,
                        args=(uploads_dir / name,), daemon=True).start() *)
}.

Arguments request_files {U} w u.
Arguments secure_filename {U} w s.
Arguments upload_stamp {U} w u.
Arguments make_uploads_dir {U} w u.
Arguments save {U} w dir name bs u.
Arguments start_thread {U} w dir name u.

(** The name under [uploads] that a file is saved as. *)
Definition saved_name {U} (wb : web U) (f : upload) (u : U) : str :=
  upload_stamp wb u ++ py "_" ++ secure_filename wb (filename f).

(** The response and the world; an exception leaves the view function. *)
Definition upload_file {U} (wb : web U) (u : U) : result response * U :=
  match request_files wb u with
  | (Raise e, u0) => (Raise e, u0)
  | (Ok None, u0) => (Ok (JsonError (py "No file provided") 400), u0)
  | (Ok (Some f), u0) =>
      if str_eqb (filename f) [] then
        (Ok (JsonError (py "No file selected") 400), u0)
      else
        match allowed_file (filename f) with
        | Raise e => (Raise e, u0)
        | Ok false =>
            (Ok (JsonError (py "Invalid file type. Use CSV or JSON") 400), u0)
        | Ok true =>
            match make_uploads_dir wb u0 with
            | (Raise e, u1) => (Raise e, u1)
            | (Ok _, u1) =>
                let name := saved_name wb f u1 in
                match save wb (py "uploads") name (data f) u1 with
                | (Raise e, u2) => (Raise e, u2)
                | (Ok _, u2) =>
                    match start_thread wb (py "uploads") name u2 with
                    | (Raise e, u3) => (Raise e, u3)
                    | (Ok _, u3) =>
                        (Ok (JsonSuccess (py "File uploaded, generation started")), u3)
                    end
                end
            end
        end
  end.

(** ** More vocabulary *)

(** The values the lines of a block give to a field, in order. *)
Definition line_values {F} (lib : library F) (f : field) (l : str) : list (pyval F) :=
  match chosen (strip l) with
  | Some g =>
      if field_eqb f g then
        match field_value lib g (value_text (strip l)) with
        | Some v => [v]
        | None => []
        end
      else []
  | None => []
  end.

(** The line holds a label. *)
Definition recognised (l : str) : bool :=
  match chosen (strip l) with
  | Some _ => true
  | None => false
  end.

(** The type of value each field holds. *)
Definition typed {F} (f : field) (v : pyval F) : Prop :=
  match f with
  | Model | Category | Language => exists s, v = PStr s /\ strip s = s
  | Temperature => exists x, v = PFloat x
  | Success => v = PInt 0 \/ v = PInt 1
  end.

(** A record of the text log: no key twice, every key a field with a value of
    its type. *)
Definition well_formed {F} (d : dict F) : Prop :=
  NoDup (map fst d)
  /\ Forall (fun kv => exists f, fst kv = key f /\ typed f (snd kv)) d.

(** ** Vocabulary of a run *)

(** The statuses that a list of assignments goes through. *)
Fixpoint scan (ws : list (status -> status)) (st : status) : list status :=
  match ws with
  | [] => []
  | f :: r => f st :: scan r (f st)
  end.

(** The assignments of [render_job] up to the last numbered step, for an
    output directory. *)
Definition stage_writes (output_dir : str) : list (status -> status) :=
  [set_output_dir (Some output_dir); set_progress 15;
   set_message (py "Generating linear progression charts..."); set_progress 20;
   set_message (py "Generating temperature analysis..."); set_progress 30;
   set_message (py "Generating bar charts..."); set_progress 40;
   set_message (py "Generating pie charts..."); set_progress 50;
   set_message (py "Generating heatmaps..."); set_progress 60;
   set_message (py "Generating dashboard..."); set_progress 70;
   set_message (py "Generating statistical tables..."); set_progress 80;
   set_message (py "Generating model-specific analysis..."); set_progress 90;
   set_message (py "Generating HTML report..."); set_progress 95].

(** The assignments after the last numbered step. *)
Definition final_writes (pngs csvs : list str) : list (status -> status) :=
  [set_charts pngs; set_tables csvs; set_progress 100;
   set_message
     (py "Complete! Generated " ++ decimal (List.length pngs)
      ++ py " charts and " ++ decimal (List.length csvs) ++ py " tables")].

(** The assignments before the data is loaded, after it is loaded, of the
    handler and of the [finally] clause. *)
Definition start_writes : list (status -> status) :=
  [set_running true; set_progress 5; set_message (py "Loading data..."); set_error None].

Definition loaded_writes {F} (df : frame F) : list (status -> status) :=
  [set_progress 10;
   set_message (py "Loaded " ++ format_thousands (List.length (frame_rows df)) ++ py " records")].

Definition error_writes (e : exn) : list (status -> status) :=
  [set_error (Some (exn_str e)); set_message (py "Error: " ++ exn_str e)].

Definition final_status (ws : list (status -> status)) (st : status) : status :=
  fold_left (fun s f => f s) ws st.

(** A piece that leaves [current_status] alone. *)
Definition quiet {W A} (m : job W A) : Prop :=
  forall s, cur (snd (m s)) = cur s /\ seen (snd (m s)) = seen s.

(** A piece that only adds to the values seen. *)
Definition hist_frame {W A} (m : job W A) : Prop :=
  forall c h w,
    m (JState c h w)
    = let '(r, s') := m (JState c [] w) in (r, JState (cur s') (seen s' ++ h) (world s')).

(** The ways a run can go, each with the assignments it makes to
    [current_status], in order. *)
Inductive outcome {F W} (lib : library F) (eng : engine F W) (fs : filesystem)
    (filepath : Path) (w0 : W) : list (status -> status) -> Prop :=
| LoadFails (e : exn) :
    load_data lib fs filepath = Raise e ->
    outcome lib eng fs filepath w0
      (start_writes ++ error_writes e ++ [set_running false])
| MkdirFails (df : frame F) (e : exn) (w1 : W) :
    load_data lib fs filepath = Ok df ->
    mkdir eng (session_dir (strftime_now eng w0)) w0 = (Raise e, w1) ->
    outcome lib eng fs filepath w0
      (start_writes ++ loaded_writes df ++ error_writes e ++ [set_running false])
| ChartsGlobFails (df : frame F) (e : exn) (w1 w wa : W) :
    load_data lib fs filepath = Ok df ->
    mkdir eng (session_dir (strftime_now eng w0)) w0 = (Ok tt, w1) ->
    glob eng (session_dir (strftime_now eng w0)) (py "**/*.png") w = (Raise e, wa) ->
    outcome lib eng fs filepath w0
      (start_writes ++ loaded_writes df ++ stage_writes (session_dir (strftime_now eng w0))
       ++ error_writes e ++ [set_running false])
| TablesGlobFails (df : frame F) (pngs : list str) (e : exn) (w1 w wa wb : W) :
    load_data lib fs filepath = Ok df ->
    mkdir eng (session_dir (strftime_now eng w0)) w0 = (Ok tt, w1) ->
    glob eng (session_dir (strftime_now eng w0)) (py "**/*.png") w = (Ok pngs, wa) ->
    glob eng (session_dir (strftime_now eng w0)) (py "**/*.csv") wa = (Raise e, wb) ->
    outcome lib eng fs filepath w0
      (start_writes ++ loaded_writes df ++ stage_writes (session_dir (strftime_now eng w0))
       ++ [set_charts pngs] ++ error_writes e ++ [set_running false])
| Completes (df : frame F) (pngs csvs : list str) (w1 w wa wb : W) :
    load_data lib fs filepath = Ok df ->
    mkdir eng (session_dir (strftime_now eng w0)) w0 = (Ok tt, w1) ->
    glob eng (session_dir (strftime_now eng w0)) (py "**/*.png") w = (Ok pngs, wa) ->
    glob eng (session_dir (strftime_now eng w0)) (py "**/*.csv") wa = (Ok csvs, wb) ->
    outcome lib eng fs filepath w0
      (start_writes ++ loaded_writes df ++ stage_writes (session_dir (strftime_now eng w0))
       ++ final_writes pngs csvs ++ [set_running false]).

(** ** An engine to run the examples with *)

Module SampleRun.

(** The world: the names of the files in the output directory. *)
Definition disk := list str.

Definition makes (name : str) (df : frame Sample.dec) (dir : str) (w : disk)
    : result unit * disk :=
  (Ok tt, w ++ [name]).

Definition fails (df : frame Sample.dec) (dir : str) (w : disk) : result unit * disk :=
  (Raise (Exn OtherException (py "nothing to plot")), w).

Definition ends_with (suffix s : str) : bool := starts_with (rev suffix) (rev s).

(** The files whose name ends as the pattern does after its [**/*]. *)
Definition glob_names (dir pattern : str) (w : disk) : result (list str) * disk :=
  (Ok (filter (ends_with (skipn 4 pattern)) w), w).

(** The temperature analysis fails; every other function makes one file. *)
Definition eng : engine Sample.dec disk := {|
  strftime_now := fun _ => py "20240101_120000";
  mkdir := fun _ w => (Ok tt, w);
  glob := glob_names;
  create_linear_progression_charts := makes (py "linear.png");
  create_enhanced_temperature_analysis := fails;
  create_temperature_heatmaps := makes (py "heatmaps.png");
  create_2d_temperature_language_comparison := makes (py "comparison.png");
  create_enhanced_bar_charts := makes (py "bars.png");
  create_pie_charts := makes (py "pies.png");
  create_model_language_heatmap := makes (py "model_language.png");
  create_category_language_heatmap := makes (py "category_language.png");
  create_analysis_summary_dashboard := makes (py "dashboard.png");
  create_comparison_tables := makes (py "comparison.csv");
  create_temperature_comparison_table := makes (py "temperature.csv");
  create_model_specific_category_tables := makes (py "categories.csv");
  create_model_specific_temperature_language_analysis := makes (py "analysis.png");
  create_models_temperature_language_summary := makes (py "summary.png");
  create_detailed_model_language_comparison := makes (py "detailed.png");
  create_simple_html_report := fun df dir pngs csvs w => (Ok tt, w ++ [py "report.html"])
|}.

Definition log : str := py "Model: m\nCategory: c\nSuccess: yes".

Definition log_path : Path := {| path_str := py "log.txt"; suffix := py ".txt" |}.

Definition log_upload : upload :=
  {| filename := py "log.txt"; data := Sample.bytes_of log |}.

(** The upload side: the request holds the sample log, names are kept as
    they are, saving adds the name to the files of the upload directory, and
    starting a thread changes nothing. *)
Definition site : web (list str) := {|
  request_files := fun u => (Ok (Some log_upload), u);
  secure_filename := fun s => s;
  upload_stamp := fun _ => py "20240101_120000";
  make_uploads_dir := fun u => (Ok tt, u);
  save := fun dir name bs u => (Ok tt, u ++ [name]);
  start_thread := fun dir name u => (Ok tt, u)
|}.

End SampleRun.

Example py_escape : py "a\n\tb:" = [97; 10; 9; 98; 58]%N.
Proof. reflexivity. Qed.

Example split_blank : split (py "\n\n") (py "a\n\n\nb\n\n\n\nc") = [py "a"; py "\nb"; []; py "c"].
Proof. reflexivity. Qed.

Example strip_ws : strip (py " \t x y \r\n") = py "x y".
Proof. reflexivity. Qed.

(** * Properties *)

(** ** Strings *)

Lemma str_eqb_eq (s t : str) : str_eqb s t = true <-> s = t.
Proof.
  revert t; induction s as [|a s IH]; intros [|b t]; simpl; split;
    try congruence; try reflexivity.
  - intros H; apply andb_true_iff in H as [H1 H2].
    apply N.eqb_eq in H1; apply IH in H2; congruence.
  - intros H; injection H as -> ->.
    rewrite N.eqb_refl; simpl; apply IH; reflexivity.
Qed.

Lemma str_eqb_refl (s : str) : str_eqb s s = true.
Proof. apply str_eqb_eq; reflexivity. Qed.

Lemma str_eqb_neq (s t : str) : str_eqb s t = false <-> s <> t.
Proof.
  split.
  - intros H E; apply str_eqb_eq in E; congruence.
  - intros H; destruct (str_eqb s t) eqn:E; [apply str_eqb_eq in E; contradiction | reflexivity].
Qed.

Lemma starts_with_app (p b : str) : starts_with p (p ++ b) = true.
Proof. induction p as [|a p IH]; simpl; [reflexivity | now rewrite N.eqb_refl]. Qed.

Lemma starts_with_true (p s : str) :
  starts_with p s = true -> s = p ++ skipn (List.length p) s.
Proof.
  revert s; induction p as [|a p IH]; intros s H; simpl in *; [reflexivity|].
  destruct s as [|b s]; [discriminate|].
  apply andb_true_iff in H as [H1 H2]; apply N.eqb_eq in H1; subst b.
  simpl; f_equal; apply IH, H2.
Qed.

(** [cut] finds an occurrence. *)
Lemma cut_some (sep s a b : str) : cut sep s = Some (a, b) -> s = a ++ sep ++ b.
Proof.
  revert a b; induction s as [|c s IH]; intros a b; simpl.
  - destruct (starts_with sep []) eqn:E; [|discriminate].
    intros H; injection H as <- <-. simpl.
    destruct sep; [reflexivity | discriminate].
  - destruct (starts_with sep (c :: s)) eqn:E.
    + intros H; injection H as <- <-. simpl. apply (starts_with_true _ _ E).
    + destruct (cut sep s) as [[a' b']|]; [|discriminate].
      intros H; injection H as <- <-. simpl; f_equal; apply IH; reflexivity.
Qed.

(** [cut] finds every string that holds an occurrence. *)
Lemma cut_app (sep a b : str) : exists a' b', cut sep (a ++ sep ++ b) = Some (a', b').
Proof.
  induction a as [|c a IH]; simpl.
  - destruct sep as [|x sep]; simpl.
    + destruct b; simpl; eauto.
    + rewrite N.eqb_refl, starts_with_app; simpl; eauto.
  - destruct (starts_with sep (c :: a ++ sep ++ b)); [eauto|].
    destruct IH as (a' & b' & ->); eauto.
Qed.

(** The occurrence [cut] finds is the leftmost one: for a separator of one
    code point, the text before it is free of it. *)
Lemma cut_char_first (c : char) (s a b : str) :
  cut [c] s = Some (a, b) -> s = a ++ c :: b /\ ~ In c a.
Proof.
  revert a b; induction s as [|x s IH]; intros a b; simpl; [discriminate|].
  destruct (N.eqb c x) eqn:E; simpl.
  - intros H; injection H as <- <-. apply N.eqb_eq in E; subst; simpl; auto.
  - destruct (cut [c] s) as [[a' b']|] eqn:Es; [|discriminate].
    intros H; injection H as <- <-.
    destruct (IH _ _ eq_refl) as [-> Hn]; split; [reflexivity|].
    simpl; intros [->|Hin]; [rewrite N.eqb_refl in E; discriminate | tauto].
Qed.

Lemma contains_true (p s : str) :
  contains p s = true <-> exists a b, s = a ++ p ++ b.
Proof.
  unfold contains; split.
  - destruct (cut p s) as [[a b]|] eqn:E; [|discriminate].
    intros _; exists a, b; apply cut_some, E.
  - intros (a & b & ->). destruct (cut_app p a b) as (a' & b' & ->); reflexivity.
Qed.

(** A line that holds a label and its colon can be cut at a colon. *)
Lemma contains_colon (lab line : str) :
  contains (lab ++ [COLON]) line = true ->
  exists a b, cut [COLON] line = Some (a, b).
Proof.
  intros H; apply contains_true in H as (a & b & ->).
  rewrite <- app_assoc, app_assoc. apply cut_app.
Qed.

(** ** Dicts *)

Lemma dict_get_set_same {F} (k : str) (v : pyval F) (d : dict F) :
  dict_get k (dict_set k v d) = Some v.
Proof.
  induction d as [|[k' v'] d IH]; simpl.
  - now rewrite str_eqb_refl.
  - destruct (str_eqb k k') eqn:E; simpl; [now rewrite str_eqb_refl | now rewrite E].
Qed.

Lemma dict_get_set_other {F} (k k' : str) (v : pyval F) (d : dict F) :
  k <> k' -> dict_get k (dict_set k' v d) = dict_get k d.
Proof.
  intros Hk; apply str_eqb_neq in Hk.
  induction d as [|[k'' v''] d IH]; simpl.
  - now rewrite Hk.
  - destruct (str_eqb k' k'') eqn:E; simpl.
    + apply str_eqb_eq in E; subst k''. now rewrite Hk.
    + now rewrite IH.
Qed.

Lemma dict_has_set {F} (k k' : str) (v : pyval F) (d : dict F) :
  dict_has k (dict_set k' v d) = str_eqb k k' || dict_has k d.
Proof.
  unfold dict_has. destruct (str_eqb k k') eqn:E.
  - apply str_eqb_eq in E; subst. now rewrite dict_get_set_same.
  - apply str_eqb_neq in E. now rewrite dict_get_set_other.
Qed.

Lemma key_inj (f g : field) : key f = key g -> f = g.
Proof. destruct f, g; simpl; intros H; try reflexivity; discriminate H. Qed.

Lemma field_eqb_eq (f g : field) : field_eqb f g = true <-> f = g.
Proof. destruct f, g; simpl; split; intros H; try reflexivity; discriminate H. Qed.

Lemma key_eqb (f g : field) : str_eqb (key f) (key g) = field_eqb f g.
Proof. destruct f, g; reflexivity. Qed.

(** ** One line *)

Lemma matches_colon (f : field) (line : str) :
  matches f line = true -> exists a b, cut [COLON] line = Some (a, b).
Proof.
  unfold matches; intros H; apply orb_true_iff in H as [H|H]; revert H;
    destruct f; simpl;
    match goal with
    | |- contains ?l _ = true -> _ =>
        let l' := eval vm_compute in (removelast l) in
        change l with (l' ++ [COLON])
    end; apply contains_colon.
Qed.

Lemma after_colon_cut (line a b : str) :
  cut [COLON] line = Some (a, b) ->
  after_colon line = Ok b /\ value_text line = strip b.
Proof.
  intros H; unfold after_colon, value_text.
  change (py ":") with [COLON]; simpl; rewrite H; simpl; auto.
Qed.

Lemma matches_after_colon (f : field) (line : str) :
  matches f line = true ->
  exists b, after_colon line = Ok b /\ value_text line = strip b.
Proof.
  intros H; destruct (matches_colon f line H) as (a & b & Hc).
  exists b; apply (after_colon_cut line a b Hc).
Qed.

(** The body of the loop never raises, and does what [apply_line] says. *)
Lemma process_line_apply {F} (lib : library F) (test : dict F) (line0 : str) :
  process_line lib test line0 = Ok (apply_line lib test line0).
Proof.
  unfold process_line, apply_line, chosen, precedence; cbn [find].
  set (line := strip line0).
  pose proof (matches_after_colon Model line) as H1.
  pose proof (matches_after_colon Category line) as H2.
  pose proof (matches_after_colon Language line) as H3.
  pose proof (matches_after_colon Temperature line) as H4.
  pose proof (matches_after_colon Success line) as H5.
  unfold matches, capitalised, lowercase in *.
  destruct (contains (py "Model:") line || contains (py "model:") line).
  { destruct (H1 eq_refl) as (b & -> & ->); reflexivity. }
  destruct (contains (py "Category:") line || contains (py "category:") line).
  { destruct (H2 eq_refl) as (b & -> & ->); reflexivity. }
  destruct (contains (py "Language:") line || contains (py "language:") line).
  { destruct (H3 eq_refl) as (b & -> & ->); reflexivity. }
  destruct (contains (py "Temperature:") line || contains (py "temperature:") line).
  { destruct (H4 eq_refl) as (b & -> & ->); cbn [field_value bind try_except].
    destruct (py_float lib (strip b)); reflexivity. }
  destruct (contains (py "Success:") line || contains (py "success:") line).
  { destruct (H5 eq_refl) as (b & -> & ->); reflexivity. }
  reflexivity.
Qed.

Lemma for_lines_fold {F} (lib : library F) (lines : list str) (test : dict F) :
  for_lines lib lines test = Ok (fold_left (apply_line lib) lines test).
Proof.
  revert test; induction lines as [|l lines IH]; intros test; simpl; [reflexivity|].
  rewrite process_line_apply; simpl; apply IH.
Qed.

Lemma parse_block_record {F} (lib : library F) (block : str) :
  parse_block lib block = Ok (record lib block).
Proof. apply for_lines_fold. Qed.

Lemma for_blocks_filter {F} (lib : library F) (bs : list str) (data : list (dict F)) :
  for_blocks lib bs data = Ok (data ++ filter keep (map (record lib) bs)).
Proof.
  revert data; induction bs as [|b bs IH]; intros data; simpl.
  - now rewrite app_nil_r.
  - rewrite parse_block_record; simpl. rewrite IH.
    destruct (keep (record lib b)); [now rewrite <- app_assoc | reflexivity].
Qed.

(** [parse_text_log] as a function of what [open] and [read] give. *)
Lemma parse_text_log_read {F} (lib : library F) (fs : filesystem) (filepath : str) :
  parse_text_log lib fs filepath =
  Ok (match read_text fs filepath with
      | Ok content => frame_or_none (records lib content)
      | Raise _ => None
      end).
Proof.
  unfold parse_text_log. destruct (read_text fs filepath) as [content|e]; simpl; [|reflexivity].
  rewrite for_blocks_filter; reflexivity.
Qed.

Lemma chosen_some (line : str) (f : field) :
  chosen line = Some f ->
  matches f line = true /\ forall g, matches g line = true -> rank f <= rank g.
Proof.
  unfold chosen, precedence; simpl.
  destruct (matches Model line) eqn:E1;
    [|destruct (matches Category line) eqn:E2;
      [|destruct (matches Language line) eqn:E3;
        [|destruct (matches Temperature line) eqn:E4;
          [|destruct (matches Success line) eqn:E5]]]];
    intros H; try discriminate H; injection H as <-; (split; [assumption|]);
    intros [] Hg; simpl; try lia; congruence.
Qed.

Lemma chosen_none (line : str) :
  chosen line = None -> forall g, matches g line = false.
Proof.
  unfold chosen, precedence; simpl.
  destruct (matches Model line) eqn:E1; [discriminate|].
  destruct (matches Category line) eqn:E2; [discriminate|].
  destruct (matches Language line) eqn:E3; [discriminate|].
  destruct (matches Temperature line) eqn:E4; [discriminate|].
  destruct (matches Success line) eqn:E5; [discriminate|].
  intros _ []; assumption.
Qed.

Lemma chosen_first (line : str) (f : field) :
  matches f line = true ->
  (forall g, rank g < rank f -> matches g line = false) ->
  chosen line = Some f.
Proof.
  intros Hf Hmin. destruct (chosen line) as [g|] eqn:E.
  - destruct (chosen_some _ _ E) as [Hg Hle].
    specialize (Hle f Hf).
    destruct (Nat.eq_dec (rank g) (rank f)) as [Heq|Hne].
    + f_equal. destruct f, g; simpl in Heq; congruence.
    + rewrite (Hmin g) in Hg by lia. discriminate.
  - rewrite (chosen_none _ E f) in Hf; discriminate.
Qed.

Lemma field_value_none {F} (lib : library F) (f : field) (v : str) :
  field_value lib f v = None -> f = Temperature.
Proof. destruct f; simpl; intros H; try discriminate H; reflexivity. Qed.

Lemma last_opt_app {A} (a b : list A) :
  last_opt (a ++ b) = match last_opt b with Some x => Some x | None => last_opt a end.
Proof.
  unfold last_opt; rewrite rev_app_distr.
  destruct (rev b); simpl; reflexivity.
Qed.

(** ** One block *)

Section Block.

Context {F : Type} (lib : library F).

Lemma apply_line_has (f : field) (test : dict F) (l : str) :
  f <> Temperature ->
  dict_has (key f) (apply_line lib test l)
  = dict_has (key f) test
    || match chosen (strip l) with Some g => field_eqb f g | None => false end.
Proof.
  intros Hf; unfold apply_line.
  destruct (chosen (strip l)) as [g|]; [|now rewrite orb_false_r].
  destruct (field_value lib g (value_text (strip l))) eqn:Ev.
  - rewrite dict_has_set, key_eqb; apply orb_comm.
  - apply field_value_none in Ev; subst g.
    destruct f; simpl; try now rewrite orb_false_r. contradiction.
Qed.

Lemma fold_has (f : field) (lines : list str) (test : dict F) :
  f <> Temperature ->
  dict_has (key f) (fold_left (apply_line lib) lines test)
  = dict_has (key f) test
    || existsb (fun l => match chosen (strip l) with Some g => field_eqb f g | None => false end)
         lines.
Proof.
  intros Hf; revert test; induction lines as [|l lines IH]; intros test; simpl.
  - now rewrite orb_false_r.
  - rewrite IH, apply_line_has by assumption. now rewrite orb_assoc.
Qed.

Lemma keep_record (block : str) :
  keep (record lib block) = has_line Model block && has_line Category block.
Proof.
  unfold keep, record, has_line.
  change (py "model") with (key Model); change (py "category") with (key Category).
  rewrite !fold_has by discriminate. reflexivity.
Qed.

Lemma filter_keep_records (bs : list str) :
  filter keep (map (record lib) bs)
  = map (record lib) (filter (fun b => has_line Model b && has_line Category b) bs).
Proof.
  induction bs as [|b bs IH]; simpl; [reflexivity|].
  rewrite keep_record. destruct (has_line Model b && has_line Category b); simpl; now rewrite IH.
Qed.

Lemma apply_line_temperature (test : dict F) (l : str) :
  dict_get (key Temperature) (apply_line lib test l)
  = match last_opt (temperature_of lib l) with
    | Some x => Some (PFloat x)
    | None => dict_get (key Temperature) test
    end.
Proof.
  unfold apply_line, temperature_of.
  destruct (chosen (strip l)) as [g|]; [|reflexivity].
  destruct g; simpl field_value; cbv iota;
    try (rewrite dict_get_set_other by discriminate; reflexivity).
  destruct (py_float lib (value_text (strip l))); simpl.
  - apply dict_get_set_same.
  - reflexivity.
Qed.

Lemma fold_temperature (lines : list str) (test : dict F) :
  dict_get (key Temperature) (fold_left (apply_line lib) lines test)
  = match last_opt (flat_map (temperature_of lib) lines) with
    | Some x => Some (PFloat x)
    | None => dict_get (key Temperature) test
    end.
Proof.
  revert test; induction lines as [|l lines IH]; intros test; simpl; [reflexivity|].
  rewrite IH, last_opt_app, apply_line_temperature.
  destruct (last_opt (flat_map (temperature_of lib) lines)); reflexivity.
Qed.

End Block.

(** ** The text-log parser *)

(** C9: [parse_text_log] never lets an exception out.  Whatever [open] finds
    and whatever the file holds, it returns a value: [None] when the file
    cannot be opened or is not UTF-8, and otherwise the frame of the kept
    records, or [None] when there is none. *)
Theorem parse_text_log_total {F} (lib : library F) (fs : filesystem) (filepath : str) :
  (exists r, parse_text_log lib fs filepath = Ok r)
  /\ (forall e, fs filepath = Raise e -> parse_text_log lib fs filepath = Ok None)
  /\ (forall bytes, fs filepath = Ok bytes -> utf8_decode bytes = None ->
      parse_text_log lib fs filepath = Ok None)
  /\ (forall bytes text, fs filepath = Ok bytes -> utf8_decode bytes = Some text ->
      parse_text_log lib fs filepath
      = Ok (frame_or_none (records lib (translate_newlines text)))).
Proof.
  rewrite parse_text_log_read; unfold read_text.
  split; [eauto|]. split; [|split].
  - intros e ->; reflexivity.
  - intros bytes -> Hd; simpl; rewrite Hd; reflexivity.
  - intros bytes text -> Hd; simpl; rewrite Hd; reflexivity.
Qed.

(** C10 (amended): a line is handled by one branch, that of the first label,
    in the order model, category, language, temperature, success, that the
    line holds; no other field changes.  The branch assigns its field, but
    for temperature only when the text after the first colon parses: if it
    does not, the line assigns nothing at all. *)
Theorem line_precedence {F} (lib : library F) (test : dict F) (line0 : str) :
  exists test',
    process_line lib test line0 = Ok test'
    /\ match chosen (strip line0) with
       | None => (forall g, matches g (strip line0) = false) /\ test' = test
       | Some f =>
           matches f (strip line0) = true
           /\ (forall g, matches g (strip line0) = true -> rank f <= rank g)
           /\ (forall k, k <> key f -> dict_get k test' = dict_get k test)
           /\ match field_value lib f (value_text (strip line0)) with
              | Some v => test' = dict_set (key f) v test /\ dict_get (key f) test' = Some v
              | None => f = Temperature /\ test' = test
              end
       end.
Proof.
  exists (apply_line lib test line0); split; [apply process_line_apply|].
  unfold apply_line.
  destruct (chosen (strip line0)) as [f|] eqn:E.
  - destruct (chosen_some _ _ E) as [Hf Hmin].
    split; [assumption|]. split; [assumption|].
    destruct (field_value lib f (value_text (strip line0))) eqn:Ev.
    + split; [intros k Hk; now apply dict_get_set_other|].
      split; [reflexivity | apply dict_get_set_same].
    + split; [reflexivity|]. split; [eapply field_value_none; eassumption | reflexivity].
  - split; [apply chosen_none; assumption | reflexivity].
Qed.

(** C2 (amended): a line that holds the capitalised or the all-lowercase
    spelling of a label with its colon, and no such spelling of a label
    earlier in the order, assigns that field from the text after the first
    colon of the line, trimmed: as text for model, category and language, as
    a float for a temperature that parses, as 1 or 0 for success. *)
Theorem label_assigns_value {F} (lib : library F) (test : dict F) (line0 : str) (f : field) :
  matches f (strip line0) = true ->
  (forall g, rank g < rank f -> matches g (strip line0) = false) ->
  exists a b,
    strip line0 = a ++ COLON :: b
    /\ ~ In COLON a
    /\ process_line lib test line0
       = Ok (match field_value lib f (strip b) with
             | Some v => dict_set (key f) v test
             | None => test
             end)
    /\ (f = Model \/ f = Category \/ f = Language ->
        process_line lib test line0 = Ok (dict_set (key f) (PStr (strip b)) test)).
Proof.
  intros Hf Hmin.
  destruct (matches_colon _ _ Hf) as (a & b & Hc).
  destruct (cut_char_first _ _ _ _ Hc) as [Heq Hn].
  destruct (after_colon_cut _ _ _ Hc) as [_ Hv].
  exists a, b. split; [assumption|]. split; [assumption|].
  assert (Hp : process_line lib test line0
               = Ok (match field_value lib f (strip b) with
                     | Some v => dict_set (key f) v test
                     | None => test
                     end)).
  { rewrite process_line_apply; unfold apply_line.
    rewrite (chosen_first _ _ Hf Hmin), Hv; reflexivity. }
  split; [assumption|].
  intros [->|[->| ->]]; rewrite Hp; reflexivity.
Qed.

(** C5 (amended): a temperature line that does not parse leaves the record
    as it is.  The record of a block is always produced; its temperature is
    that of the last temperature line of the block that parses, and is absent
    when there is none (never a default); the record is kept when it has a
    model and a category. *)
Theorem temperature_last_parsed {F} (lib : library F) (block : str) :
  exists test,
    parse_block lib block = Ok test
    /\ dict_get (py "temperature") test
       = option_map PFloat (last_opt (parsed_temperatures lib block))
    /\ (forall line0 test0 e,
          chosen (strip line0) = Some Temperature ->
          py_float lib (value_text (strip line0)) = Raise e ->
          process_line lib test0 line0 = Ok test0)
    /\ (dict_has (py "model") test = true -> dict_has (py "category") test = true ->
        forall rest data,
          for_blocks lib (block :: rest) data = for_blocks lib rest (data ++ [test])).
Proof.
  exists (record lib block). split; [apply parse_block_record|]. split; [|split].
  - unfold record, parsed_temperatures.
    change (py "temperature") with (key Temperature).
    rewrite fold_temperature.
    destruct (last_opt (flat_map (temperature_of lib) (split [LF] block))); reflexivity.
  - intros line0 test0 e Hc He. rewrite process_line_apply; unfold apply_line.
    rewrite Hc; simpl. rewrite He. reflexivity.
  - intros Hm Hc rest data; simpl. rewrite parse_block_record; simpl.
    unfold keep; rewrite Hm, Hc; reflexivity.
Qed.

(** C1 (amended): the frame holds, in the order of the file, the records of
    the blocks that have a line read as model and a line read as category,
    and of no other block; the values may be empty.  No error is raised for
    the blocks that are dropped. *)
Theorem kept_iff_both_lines {F} (lib : library F) (fs : filesystem) (filepath content : str) :
  read_text fs filepath = Ok content ->
  exists rows,
    parse_text_log lib fs filepath = Ok (frame_or_none rows)
    /\ Forall2 (fun b r => parse_block lib b = Ok r)
         (filter (fun b => has_line Model b && has_line Category b) (blocks content))
         rows
    /\ (forall b r, In b (blocks content) -> parse_block lib b = Ok r ->
        keep r = has_line Model b && has_line Category b).
Proof.
  intros Hr.
  exists (map (record lib)
            (filter (fun b => has_line Model b && has_line Category b) (blocks content))).
  split; [|split].
  - rewrite parse_text_log_read, Hr. unfold records. now rewrite filter_keep_records.
  - induction (filter (fun b => has_line Model b && has_line Category b) (blocks content));
      simpl; constructor; [apply parse_block_record | assumption].
  - intros b r _ Hb. rewrite parse_block_record in Hb; injection Hb as <-.
    apply keep_record.
Qed.

(** ** Loading the data *)

Lemma records_nil {F} (lib : library F) (content : str) :
  (forall b r, In b (blocks content) -> parse_block lib b = Ok r -> keep r = false) ->
  records lib content = [].
Proof.
  intros H; unfold records.
  induction (blocks content) as [|b bs IH]; simpl; [reflexivity|].
  rewrite (H b (record lib b)); [|now left | apply parse_block_record].
  apply IH; intros b' r Hin; apply H; now right.
Qed.

Section Dispatch.

Context {F : Type} (lib : library F) (fs : filesystem) (filepath : Path).

Lemma load_data_csv :
  lower (suffix filepath) = py ".csv" ->
  load_data lib fs filepath = (bytes <- fs (path_str filepath) ;; read_csv lib bytes).
Proof. unfold load_data; intros ->; reflexivity. Qed.

Lemma load_data_json :
  lower (suffix filepath) = py ".json" ->
  load_data lib fs filepath
  = (content <- read_text fs (path_str filepath) ;;
     data <- json_loads lib content ;;
     pd_DataFrame lib (json_rows data)).
Proof. unfold load_data; intros ->; reflexivity. Qed.

Lemma load_data_txt :
  lower (suffix filepath) = py ".txt" ->
  load_data lib fs filepath
  = (df <- parse_text_log lib fs (path_str filepath) ;;
     match df with
     | None => Raise (Exn ValueError (py "Failed to parse text file"))
     | Some df => Ok df
     end).
Proof. unfold load_data; intros ->; reflexivity. Qed.

Lemma load_data_other :
  lower (suffix filepath) <> py ".csv" ->
  lower (suffix filepath) <> py ".json" ->
  lower (suffix filepath) <> py ".txt" ->
  load_data lib fs filepath
  = Raise (Exn ValueError (py "Unsupported file type: " ++ suffix filepath)).
Proof.
  intros H1 H2 H3; unfold load_data.
  apply str_eqb_neq in H1, H2, H3. rewrite H1, H2, H3. reflexivity.
Qed.

End Dispatch.

(** C3: the strategy is chosen by the suffix of the path, lower-cased:
    [.csv] reads the file with [read_csv], [.json] with [json.load], [.txt]
    with [parse_text_log]; any other suffix raises an error whose message
    ends with the suffix as written, which ends the run with that message in
    [current_status] and nothing rendered. *)
Theorem load_data_by_suffix {F} (lib : library F) (fs : filesystem) (filepath : Path) :
  (lower (suffix filepath) = py ".csv" ->
   load_data lib fs filepath = (bytes <- fs (path_str filepath) ;; read_csv lib bytes))
  /\ (lower (suffix filepath) = py ".json" ->
      load_data lib fs filepath
      = (content <- read_text fs (path_str filepath) ;;
         data <- json_loads lib content ;;
         pd_DataFrame lib (json_rows data)))
  /\ (lower (suffix filepath) = py ".txt" ->
      load_data lib fs filepath
      = (df <- parse_text_log lib fs (path_str filepath) ;;
         match df with
         | None => Raise (Exn ValueError (py "Failed to parse text file"))
         | Some df => Ok df
         end))
  /\ (lower (suffix filepath) <> py ".csv" ->
      lower (suffix filepath) <> py ".json" ->
      lower (suffix filepath) <> py ".txt" ->
      load_data lib fs filepath
      = Raise (Exn ValueError (py "Unsupported file type: " ++ suffix filepath))
      /\ forall render st,
          generate_visualizations lib fs render filepath st
          = Status false 5 (py "Error: " ++ py "Unsupported file type: " ++ suffix filepath)
              (output_dir st) (charts st) (tables st)
              (Some (py "Unsupported file type: " ++ suffix filepath))).
Proof.
  split; [apply load_data_csv|]. split; [apply load_data_json|].
  split; [apply load_data_txt|].
  intros H1 H2 H3. pose proof (load_data_other lib fs filepath H1 H2 H3) as Hl.
  split; [assumption|].
  intros render st. unfold generate_visualizations. rewrite Hl. reflexivity.
Qed.

(** C6 (amended): the code does not look at the shape of the value read
    from a [.json] file.  A sequence is handed to [pd.DataFrame] as it is,
    one raw record for each element; any other value, a mapping or a scalar
    alike, is handed over as the one-element list that holds it, exactly one
    raw record.  Loading gives what [pd.DataFrame] gives on these records,
    its frame or its error. *)
Theorem json_value_to_rows {F} (lib : library F) (fs : filesystem) (filepath : Path)
    (content : str) (data : pyval F) :
  lower (suffix filepath) = py ".json" ->
  read_text fs (path_str filepath) = Ok content ->
  json_loads lib content = Ok data ->
  exists rows,
    load_data lib fs filepath = pd_DataFrame lib rows
    /\ (forall l, data = PList l -> rows = l)
    /\ ((forall l, data <> PList l) -> rows = [data]).
Proof.
  intros Hs Hr Hj. exists (json_rows data). split; [|split].
  - rewrite (load_data_json lib fs filepath Hs), Hr; simpl. rewrite Hj; reflexivity.
  - intros l ->; reflexivity.
  - intros Hn. destruct data; try reflexivity. exfalso; eapply Hn; reflexivity.
Qed.

(** C8: when no block of a text log gives a record with both [model] and
    [category], loading raises [ValueError('Failed to parse text file')];
    the run ends there, with that message as the error of [current_status],
    and the renderer is not called. *)
Theorem no_valid_records_fatal {F} (lib : library F) (fs : filesystem)
    (render : frame F -> status -> result unit * status)
    (filepath : Path) (st : status) (content : str) :
  lower (suffix filepath) = py ".txt" ->
  read_text fs (path_str filepath) = Ok content ->
  (forall b r, In b (blocks content) -> parse_block lib b = Ok r -> keep r = false) ->
  parse_text_log lib fs (path_str filepath) = Ok None
  /\ load_data lib fs filepath = Raise (Exn ValueError (py "Failed to parse text file"))
  /\ generate_visualizations lib fs render filepath st
     = Status false 5 (py "Error: " ++ py "Failed to parse text file")
         (output_dir st) (charts st) (tables st)
         (Some (py "Failed to parse text file")).
Proof.
  intros Hs Hr Hn.
  assert (Hp : parse_text_log lib fs (path_str filepath) = Ok None).
  { rewrite parse_text_log_read, Hr, (records_nil lib content Hn); reflexivity. }
  assert (Hl : load_data lib fs filepath
               = Raise (Exn ValueError (py "Failed to parse text file"))).
  { rewrite (load_data_txt lib fs filepath Hs), Hp; reflexivity. }
  split; [assumption|]. split; [assumption|].
  unfold generate_visualizations. rewrite Hl. reflexivity.
Qed.

(** ** Splitting *)

Lemma cut_length (sep s a b : str) :
  cut sep s = Some (a, b) ->
  List.length s = List.length a + List.length sep + List.length b.
Proof.
  intros H; apply cut_some in H; subst s. rewrite !length_app; lia.
Qed.

Lemma cut_nil (sep : str) : sep <> [] -> cut sep [] = None.
Proof. destruct sep; [congruence | reflexivity]. Qed.

(** A bound of [maxsplit] at or above the length of the string is no bound. *)
Lemma splitn_enough (sep : str) (n m : nat) (s : str) :
  sep <> [] -> List.length s <= n -> List.length s <= m ->
  splitn n sep s = splitn m sep s.
Proof.
  intros Hsep; revert m s; induction n as [|n IH]; intros [|m] s Hn Hm; simpl;
    try reflexivity.
  - destruct s; [|simpl in Hn; lia]. now rewrite cut_nil.
  - destruct s; [|simpl in Hm; lia]. now rewrite cut_nil.
  - destruct (cut sep s) as [[a b]|] eqn:E; [|reflexivity].
    f_equal. pose proof (cut_length _ _ _ _ E) as Hl.
    assert (0 < List.length sep) by (destruct sep; [congruence | simpl; lia]).
    apply IH; lia.
Qed.

(** The recursion that [split] follows. *)
Lemma split_eq (sep s : str) :
  sep <> [] ->
  split sep s = match cut sep s with
                | None => [s]
                | Some (a, b) => a :: split sep b
                end.
Proof.
  intros Hsep; unfold split.
  destruct (List.length s) as [|n] eqn:El; simpl.
  - destruct s; [|discriminate]. now rewrite cut_nil.
  - destruct (cut sep s) as [[a b]|] eqn:E; [|reflexivity].
    f_equal. pose proof (cut_length _ _ _ _ E) as Hl.
    assert (0 < List.length sep) by (destruct sep; [congruence | simpl; lia]).
    apply splitn_enough; [assumption | lia | lia].
Qed.

Lemma splitn_nonempty (n : nat) (sep s : str) : splitn n sep s <> [].
Proof. destruct n; simpl; [discriminate|]. destruct (cut sep s) as [[a b]|]; discriminate. Qed.

Lemma join_cons (sep p : str) (rest : list str) :
  rest <> [] -> join sep (p :: rest) = p ++ sep ++ join sep rest.
Proof. destruct rest; [congruence | reflexivity]. Qed.

Lemma join_splitn (sep : str) (n : nat) (s : str) : join sep (splitn n sep s) = s.
Proof.
  revert s; induction n as [|n IH]; intros s; simpl; [reflexivity|].
  destruct (cut sep s) as [[a b]|] eqn:E; [|reflexivity].
  rewrite join_cons by apply splitn_nonempty.
  rewrite IH. symmetry; apply cut_some, E.
Qed.

(** The pieces of a split, joined again, are the string. *)
Lemma join_split (sep s : str) : join sep (split sep s) = s.
Proof. apply join_splitn. Qed.

Lemma cut_char_none (c : char) (s : str) : cut [c] s = None -> ~ In c s.
Proof.
  induction s as [|x s IH]; simpl; [tauto|].
  destruct (N.eqb c x) eqn:E; simpl; [discriminate|].
  destruct (cut [c] s) as [[a b]|]; [discriminate|].
  intros _ [->|Hin]; [rewrite N.eqb_refl in E; discriminate | now apply IH].
Qed.

Lemma splitn_char_free (c : char) (n : nat) (s : str) :
  List.length s <= n -> Forall (fun l => ~ In c l) (splitn n [c] s).
Proof.
  revert s; induction n as [|n IH]; intros s Hn; simpl.
  - destruct s; [|simpl in Hn; lia]. constructor; [tauto | constructor].
  - destruct (cut [c] s) as [[a b]|] eqn:E.
    + pose proof (cut_length _ _ _ _ E) as Hl; simpl in Hl.
      constructor; [apply (cut_char_first _ _ _ _ E) | apply IH; lia].
    + constructor; [apply cut_char_none, E | constructor].
Qed.

(** The lines of a text hold no newline. *)
Lemma lines_free (s : str) : Forall (fun l => ~ In LF l) (split [LF] s).
Proof. apply splitn_char_free; reflexivity. Qed.

(** *** Cutting at an empty line *)

Lemma cut_cons (sep : str) (c : char) (s : str) :
  cut sep (c :: s)
  = if starts_with sep (c :: s) then Some ([], skipn (List.length sep) (c :: s))
    else match cut sep s with
         | Some (a, b) => Some (c :: a, b)
         | None => None
         end.
Proof. reflexivity. Qed.

Lemma starts2_other (x : char) (r : str) :
  x <> LF -> starts_with [LF; LF] (x :: r) = false.
Proof.
  intros Hx. cbn [starts_with].
  destruct (N.eqb_spec LF x) as [E|E]; [congruence | reflexivity].
Qed.

Lemma cut2_here (l X : str) :
  ~ In LF l -> cut [LF; LF] (l ++ [LF; LF] ++ X) = Some (l, X).
Proof.
  induction l as [|x l IH]; intros Hl; [reflexivity|].
  change ((x :: l) ++ [LF; LF] ++ X) with (x :: (l ++ [LF; LF] ++ X)).
  rewrite cut_cons, starts2_other by (intros ->; apply Hl; now left).
  rewrite IH; [reflexivity | intros H; apply Hl; now right].
Qed.

Lemma cut2_later (l s : str) (c : char) :
  ~ In LF l -> c <> LF ->
  cut [LF; LF] (l ++ LF :: c :: s)
  = match cut [LF; LF] (c :: s) with
    | Some (a, b) => Some (l ++ LF :: a, b)
    | None => None
    end.
Proof.
  intros Hl Hc.
  induction l as [|x l IH].
  - change ([] ++ LF :: c :: s) with (LF :: c :: s).
    rewrite (cut_cons _ LF).
    replace (starts_with [LF; LF] (LF :: c :: s)) with false.
    + destruct (cut [LF; LF] (c :: s)) as [[a b]|]; reflexivity.
    + cbn [starts_with]. rewrite N.eqb_refl.
      destruct (N.eqb_spec LF c) as [E|E]; [congruence | reflexivity].
  - change ((x :: l) ++ LF :: c :: s) with (x :: (l ++ LF :: c :: s)).
    rewrite cut_cons, starts2_other by (intros ->; apply Hl; now left).
    rewrite IH by (intros H; apply Hl; now right).
    destruct (cut [LF; LF] (c :: s)) as [[a b]|]; reflexivity.
Qed.

Lemma cut2_none (l : str) :
  ~ In LF l -> cut [LF; LF] l = None /\ cut [LF; LF] (l ++ [LF]) = None.
Proof.
  induction l as [|x l IH]; intros Hl; [split; reflexivity|].
  destruct IH as [H1 H2]; [intros H; apply Hl; now right|].
  split.
  - rewrite cut_cons, starts2_other by (intros ->; apply Hl; now left). now rewrite H1.
  - change ((x :: l) ++ [LF]) with (x :: (l ++ [LF])).
    rewrite cut_cons, starts2_other by (intros ->; apply Hl; now left). now rewrite H2.
Qed.

Lemma join_head (sep : str) (c : char) (l : str) (rest : list str) :
  join sep ((c :: l) :: rest) = c :: join sep (l :: rest).
Proof. destruct rest; reflexivity. Qed.

Lemma join_app (sep : str) (X Y : list str) :
  X <> [] -> Y <> [] -> join sep (X ++ Y) = join sep X ++ sep ++ join sep Y.
Proof.
  intros HX HY; induction X as [|x X IH]; [congruence|].
  destruct X as [|x' X].
  - simpl app. now rewrite join_cons.
  - change ((x :: x' :: X) ++ Y) with (x :: ((x' :: X) ++ Y)).
    rewrite join_cons by discriminate. rewrite IH by discriminate.
    rewrite (join_cons sep x (x' :: X)) by discriminate.
    now rewrite <- !app_assoc.
Qed.

(** A piece: a first line, then lines that are not empty.  Its text holds no
    empty line to cut at. *)
Lemma piece_cut (p0 : str) (A : list str) :
  Forall (fun l => ~ In LF l) (p0 :: A) ->
  Forall (fun l => l <> []) A ->
  (forall X, cut [LF; LF] (join [LF] (p0 :: A) ++ [LF; LF] ++ X)
             = Some (join [LF] (p0 :: A), X))
  /\ cut [LF; LF] (join [LF] (p0 :: A)) = None
  /\ cut [LF; LF] (join [LF] (p0 :: A) ++ [LF]) = None.
Proof.
  revert p0; induction A as [|a A IH]; intros p0 Hfree Hne.
  - inversion Hfree; subst. simpl join.
    split; [intros X; now apply cut2_here | now apply cut2_none].
  - inversion Hfree as [|? ? Hp0 Hfree']; subst.
    inversion Hne as [|? ? Ha HneA]; subst.
    destruct a as [|c a]; [congruence|].
    assert (Hc : c <> LF).
    { inversion Hfree' as [|? ? Hca _]; subst. intros ->; apply Hca; now left. }
    destruct (IH (c :: a) Hfree' HneA) as (I1 & I2 & I3).
    rewrite join_cons by discriminate. rewrite join_head in *.
    split; [|split].
    + intros X. rewrite <- !app_assoc. cbn [app].
      rewrite cut2_later by assumption.
      change (c :: join [LF] (a :: A) ++ LF :: LF :: X)
        with ((c :: join [LF] (a :: A)) ++ [LF; LF] ++ X).
      rewrite I1. reflexivity.
    + cbn [app]. rewrite cut2_later by assumption. now rewrite I2.
    + rewrite <- !app_assoc. cbn [app].
      rewrite cut2_later by assumption.
      change (c :: join [LF] (a :: A) ++ [LF]) with ((c :: join [LF] (a :: A)) ++ [LF]).
      now rewrite I3.
Qed.

Lemma two_newlines : [LF; LF] <> [].
Proof. discriminate. Qed.

Lemma split_piece (p0 : str) (A : list str) :
  Forall (fun l => ~ In LF l) (p0 :: A) ->
  Forall (fun l => l <> []) A ->
  split [LF; LF] (join [LF] (p0 :: A)) = [join [LF] (p0 :: A)]
  /\ split [LF; LF] (join [LF] ((p0 :: A) ++ [[]])) = [join [LF] (p0 :: A) ++ [LF]]
  /\ forall M, M <> [] ->
       split [LF; LF] (join [LF] ((p0 :: A) ++ [] :: M))
       = join [LF] (p0 :: A) :: split [LF; LF] (join [LF] M).
Proof.
  intros Hfree Hne. destruct (piece_cut p0 A Hfree Hne) as (C1 & C2 & C3).
  split; [|split].
  - rewrite split_eq by apply two_newlines. now rewrite C2.
  - rewrite join_app by discriminate. simpl (join [LF] [[]]).
    rewrite app_nil_r, split_eq by apply two_newlines. now rewrite C3.
  - intros M HM. rewrite join_app by discriminate.
    rewrite (join_cons [LF] [] M) by assumption.
    change ([LF] ++ [] ++ [LF] ++ join [LF] M) with ([LF; LF] ++ join [LF] M).
    rewrite split_eq by apply two_newlines. now rewrite C1.
Qed.

(** *** Runs of lines *)

Lemma push_app (cur : list str) (rest R : list (list str)) :
  push cur (rest ++ R) = push cur rest ++ R.
Proof. destruct cur; reflexivity. Qed.

Lemma runs_from_app (sepl : str -> bool) (X Z : list str) (R : list (list str)) :
  runs_from sepl Z = ([], R) ->
  runs_from sepl (X ++ Z)
  = (fst (runs_from sepl X), snd (runs_from sepl X) ++ R).
Proof.
  intros HZ; induction X as [|x X IH]; simpl; [now rewrite HZ|].
  rewrite IH. destruct (runs_from sepl X) as [cur rest]; simpl.
  destruct (sepl x); simpl; [now rewrite push_app | reflexivity].
Qed.

(** A separator line ends the runs before it. *)
Lemma runs_app_sep (sepl : str -> bool) (X Y : list str) (s : str) :
  sepl s = true -> runs sepl (X ++ s :: Y) = runs sepl X ++ runs sepl Y.
Proof.
  intros Hs; unfold runs.
  rewrite (runs_from_app sepl X (s :: Y) (runs sepl Y)).
  - destruct (runs_from sepl X) as [cur rest]; simpl. apply push_app.
  - simpl. unfold runs. destruct (runs_from sepl Y) as [cur rest]. now rewrite Hs.
Qed.

Lemma runs_from_nonsep (sepl : str -> bool) (X : list str) :
  Forall (fun l => sepl l = false) X -> runs_from sepl X = (X, []).
Proof.
  induction 1 as [|x X Hx _ IH]; simpl; [reflexivity|]. now rewrite IH, Hx.
Qed.

Lemma is_empty_false (l : str) : l <> [] -> is_empty l = false.
Proof. destruct l; [congruence | reflexivity]. Qed.

Lemma runs_piece (p0 : str) (A : list str) :
  Forall (fun l => l <> []) A ->
  runs is_empty (p0 :: A) = if is_empty p0 then push A [] else [p0 :: A].
Proof.
  intros Hne; unfold runs; simpl.
  rewrite runs_from_nonsep.
  - destruct (is_empty p0); reflexivity.
  - eapply Forall_impl; [|exact Hne]. apply is_empty_false.
Qed.

(** *** Trimming *)

Lemma lstrip_all (s : str) : forallb isspace s = true -> lstrip s = [].
Proof.
  induction s as [|c s IH]; simpl; [reflexivity|].
  destruct (isspace c); simpl; [assumption | discriminate].
Qed.

Lemma lstrip_app_space (s : str) (w : char) :
  isspace w = true ->
  lstrip (s ++ [w]) = if forallb isspace s then [] else lstrip s ++ [w].
Proof.
  intros Hw; induction s as [|c s IH]; simpl; [now rewrite Hw|].
  destruct (isspace c); simpl; [assumption | reflexivity].
Qed.

Lemma rstrip_app_space (t : str) (w : char) :
  isspace w = true -> rstrip (t ++ [w]) = rstrip t.
Proof.
  intros Hw; unfold rstrip. rewrite rev_app_distr; simpl. now rewrite Hw.
Qed.

Lemma strip_app_space (s : str) (w : char) :
  isspace w = true -> strip (s ++ [w]) = strip s.
Proof.
  intros Hw; unfold strip. rewrite lstrip_app_space by assumption.
  destruct (forallb isspace s) eqn:E.
  - now rewrite lstrip_all.
  - now apply rstrip_app_space.
Qed.

Lemma strip_cons_space (s : str) (w : char) :
  isspace w = true -> strip (w :: s) = strip s.
Proof. intros Hw; unfold strip; simpl. now rewrite Hw. Qed.

Lemma filter_map_strip (p : str -> bool) (f : str -> str) (l : list str) :
  map f (filter (fun b => p (f b)) l) = filter p (map f l).
Proof.
  induction l as [|x l IH]; simpl; [reflexivity|].
  destruct (p (f x)); simpl; now rewrite IH.
Qed.

(** The one block of a piece. *)
Lemma piece_block (p0 : str) (A : list str) :
  Forall (fun l => l <> []) A ->
  filter nonempty [strip (join [LF] (p0 :: A))]
  = filter nonempty (map block_text (runs is_empty (p0 :: A))).
Proof.
  intros Hne. rewrite runs_piece by assumption.
  destruct p0 as [|c p0]; [|reflexivity].
  destruct A as [|a A]; [reflexivity|].
  rewrite join_cons by discriminate.
  change ([] ++ [LF] ++ join [LF] (a :: A)) with (LF :: join [LF] (a :: A)).
  rewrite strip_cons_space by reflexivity. reflexivity.
Qed.

Lemma filter_cons_app {A} (p : A -> bool) (x : A) (l : list A) :
  filter p (x :: l) = filter p [x] ++ filter p l.
Proof. simpl; destruct (p x); reflexivity. Qed.

(** The blocks of the source are the runs of lines between empty lines. *)
Lemma blocks_of_lines (n : nat) :
  forall (L : list str) (p0 : str) (A : list str),
    List.length L <= n ->
    Forall (fun l => ~ In LF l) (p0 :: A ++ L) ->
    Forall (fun l => l <> []) A ->
    filter nonempty (map strip (split [LF; LF] (join [LF] (p0 :: A ++ L))))
    = filter nonempty (map block_text (runs is_empty (p0 :: A ++ L))).
Proof.
  induction n as [|n IH]; intros L p0 A Hn Hfree Hne.
  - destruct L; [|simpl in Hn; lia]. rewrite app_nil_r in *.
    destruct (split_piece p0 A Hfree Hne) as (-> & _ & _). now apply piece_block.
  - destruct L as [|x L].
    { rewrite app_nil_r in *.
      destruct (split_piece p0 A Hfree Hne) as (-> & _ & _). now apply piece_block. }
    simpl in Hn.
    assert (Hfree1 : Forall (fun l => ~ In LF l) (p0 :: A)).
    { change (p0 :: A ++ x :: L) with ((p0 :: A) ++ x :: L) in Hfree.
      apply Forall_app in Hfree; tauto. }
    assert (HfreeL : Forall (fun l => ~ In LF l) L).
    { rewrite Forall_forall in *. intros l Hl; apply Hfree.
      right; apply in_or_app; right; now right. }
    destruct x as [|c x].
    + destruct (split_piece p0 A Hfree1 Hne) as (_ & S2 & S3).
      change (p0 :: A ++ [] :: L) with ((p0 :: A) ++ [] :: L).
      rewrite runs_app_sep by reflexivity.
      rewrite map_app, filter_app, <- piece_block by assumption.
      destruct L as [|l' L].
      * rewrite S2. cbn [map runs runs_from push filter app].
        rewrite strip_app_space by reflexivity. now rewrite app_nil_r.
      * rewrite S3 by discriminate. cbn [map].
        rewrite filter_cons_app. f_equal.
        apply (IH L l' []); [simpl in Hn; lia | assumption | constructor].
    + replace (p0 :: A ++ (c :: x) :: L) with (p0 :: (A ++ [c :: x]) ++ L)
        by (now rewrite <- app_assoc).
      apply IH; [lia | now rewrite <- app_assoc |].
      apply Forall_app; split; [assumption|]. constructor; [discriminate | constructor].
Qed.

Lemma blocks_filter_map (content : str) :
  blocks content = filter nonempty (map strip (split [LF; LF] content)).
Proof. unfold blocks. apply (filter_map_strip nonempty strip). Qed.

(** [blocks] in terms of the lines of the text. *)
Lemma blocks_runs (content : str) :
  blocks content
  = filter nonempty (map block_text (runs is_empty (split [LF] content))).
Proof.
  rewrite blocks_filter_map.
  pose proof (join_split [LF] content) as Hj.
  pose proof (lines_free content) as Hf.
  destruct (split [LF] content) as [|l0 L] eqn:E.
  - exfalso; revert E; apply splitn_nonempty.
  - rewrite <- Hj at 1.
    apply (blocks_of_lines (List.length L) L l0 []); [lia | assumption | constructor].
Qed.

Lemma runs_from_ext (s1 s2 : str -> bool) (lines : list str) :
  (forall l, In l lines -> s1 l = s2 l) -> runs_from s1 lines = runs_from s2 lines.
Proof.
  induction lines as [|l lines IH]; intros H; simpl; [reflexivity|].
  rewrite IH by (intros l' Hl'; apply H; now right).
  rewrite (H l) by now left. reflexivity.
Qed.

Lemma runs_ext (s1 s2 : str -> bool) (lines : list str) :
  (forall l, In l lines -> s1 l = s2 l) -> runs s1 lines = runs s2 lines.
Proof. intros H; unfold runs. now rewrite (runs_from_ext s1 s2). Qed.

Lemma runs_from_shape (sepl : str -> bool) (lines : list str) :
  Forall (fun l => sepl l = false) (fst (runs_from sepl lines))
  /\ Forall (is_run sepl) (snd (runs_from sepl lines)).
Proof.
  induction lines as [|l lines [IH1 IH2]]; simpl; [split; constructor|].
  destruct (runs_from sepl lines) as [cur rest]; simpl in *.
  destruct (sepl l) eqn:E; simpl.
  - split; [constructor|].
    destruct cur; simpl; [assumption|].
    constructor; [split; [discriminate | assumption] | assumption].
  - split; [constructor; assumption | assumption].
Qed.

(** A run is a non-empty list of lines that are not separators. *)
Lemma runs_shape (sepl : str -> bool) (lines : list str) :
  Forall (is_run sepl) (runs sepl lines).
Proof.
  unfold runs. destruct (runs_from_shape sepl lines) as [H1 H2].
  destruct (runs_from sepl lines) as [cur rest]; simpl in *.
  destruct cur; simpl; [assumption|].
  constructor; [split; [discriminate | assumption] | assumption].
Qed.

Lemma lstrip_nil (s : str) : lstrip s = [] -> forallb isspace s = true.
Proof.
  induction s as [|c s IH]; simpl; [reflexivity|].
  destruct (isspace c); simpl; [assumption | discriminate].
Qed.

Lemma forallb_rev {A} (p : A -> bool) (l : list A) : forallb p (rev l) = forallb p l.
Proof.
  induction l as [|x l IH]; simpl; [reflexivity|].
  rewrite forallb_app, IH; simpl. rewrite andb_true_r. apply andb_comm.
Qed.

(** Only white space trims to nothing. *)
Lemma strip_nil (s : str) : strip s = [] -> forallb isspace s = true.
Proof.
  unfold strip, rstrip; intros H.
  assert (H1 : lstrip (rev (lstrip s)) = []).
  { destruct (lstrip (rev (lstrip s))); [reflexivity|].
    simpl in H. destruct (rev l); discriminate. }
  apply lstrip_nil in H1. rewrite forallb_rev in H1.
  induction s as [|c s IH]; simpl in *; [reflexivity|].
  destruct (isspace c) eqn:E; simpl in *; [now apply IH|].
  rewrite E in H1; discriminate.
Qed.

Lemma blank_join (R : list str) :
  forallb isspace (join [LF] R) = true -> Forall (fun l => blank l = true) R.
Proof.
  induction R as [|p R IH]; intros H; [constructor|].
  destruct R as [|q R]; [constructor; [assumption | constructor]|].
  rewrite join_cons in H by discriminate.
  rewrite !forallb_app in H. apply andb_true_iff in H as [Hp H].
  apply andb_true_iff in H as [_ H].
  constructor; [assumption | now apply IH].
Qed.

Lemma run_block_nonempty (R : list str) :
  is_run blank R -> nonempty (block_text R) = true.
Proof.
  intros [Hne Hall]. unfold nonempty, block_text.
  destruct (strip (join [LF] R)) eqn:E; [|reflexivity].
  apply strip_nil, blank_join in E.
  destruct R as [|p R]; [congruence|].
  inversion E; inversion Hall; subst; congruence.
Qed.

Lemma filter_all {A} (p : A -> bool) (l : list A) :
  Forall (fun x => p x = true) l -> filter p l = l.
Proof. induction 1 as [|x l Hx _ IH]; simpl; [reflexivity|]. now rewrite Hx, IH. Qed.

(** When every blank line is empty, the blocks are those of the
    specification. *)
Lemma blocks_spec (content : str) :
  (forall l, In l (split [LF] content) -> blank l = true -> l = []) ->
  blocks content = spec_blocks content.
Proof.
  intros H. rewrite blocks_runs. unfold spec_blocks.
  rewrite (runs_ext is_empty blank).
  - apply filter_all. apply Forall_map.
    eapply Forall_impl; [|apply runs_shape]. apply run_block_nonempty.
  - intros l Hl. destruct (blank l) eqn:E.
    + now rewrite (H l Hl E).
    + destruct l; [discriminate | reflexivity].
Qed.

(** *** Line endings *)

Lemma translate_free (l s : str) :
  ~ In CR l -> translate_newlines (l ++ s) = l ++ translate_newlines s.
Proof.
  induction l as [|c l IH]; intros Hl; [reflexivity|].
  change ((c :: l) ++ s) with (c :: (l ++ s)). cbn [translate_newlines].
  destruct (N.eqb_spec c CR) as [->|Hc]; [exfalso; apply Hl; now left|].
  rewrite IH by (intros H; apply Hl; now right). reflexivity.
Qed.

Lemma translate_crlf (s : str) :
  translate_newlines (CR :: LF :: s) = LF :: translate_newlines s.
Proof. reflexivity. Qed.

Lemma translate_cr (s : str) :
  match s with d :: _ => d <> LF | [] => True end ->
  translate_newlines (CR :: s) = LF :: translate_newlines s.
Proof.
  destruct s as [|d s]; intros H; [reflexivity|].
  cbn [translate_newlines]. rewrite N.eqb_refl.
  destruct (N.eqb_spec d LF); [contradiction | reflexivity].
Qed.

Lemma join_starts (sep : str) (lines : list str) :
  Forall (fun l => ~ In LF l) lines -> ~ In LF sep ->
  match join sep lines with d :: _ => d <> LF | [] => True end.
Proof.
  intros Hl Hsep.
  assert (H : ~ In LF (join sep lines)).
  { induction Hl as [|l lines Hl0 Hl' IH]; [simpl; tauto|].
    destruct lines as [|l2 lines]; [assumption|].
    rewrite join_cons by discriminate. rewrite !in_app_iff. tauto. }
  destruct (join sep lines) as [|d r]; [exact I|].
  intros ->; apply H; now left.
Qed.

(** Lines ended by [\r\n], by [\r] or by [\n] are read as the same text. *)
Lemma newline_conventions (lines : list str) :
  Forall (fun l => ~ In CR l /\ ~ In LF l) lines ->
  translate_newlines (join [CR; LF] lines) = join [LF] lines
  /\ translate_newlines (join [CR] lines) = join [LF] lines
  /\ translate_newlines (join [LF] lines) = join [LF] lines.
Proof.
  intros H.
  assert (Hlf : Forall (fun l => ~ In LF l) lines)
    by (eapply Forall_impl; [|exact H]; simpl; tauto).
  induction H as [|l lines [Hcr Hl] H IH]; [repeat split|].
  inversion Hlf as [|? ? _ Hlf']; subst.
  destruct (IH Hlf') as (I1 & I2 & I3).
  destruct lines as [|l2 lines].
  - simpl join. pose proof (translate_free l [] Hcr) as E.
    rewrite app_nil_r in E. simpl in E. rewrite app_nil_r in E. now rewrite E.
  - rewrite (join_cons [CR; LF]), (join_cons [CR]), (join_cons [LF]) by discriminate.
    rewrite (translate_free l ([CR; LF] ++ join [CR; LF] (l2 :: lines)) Hcr).
    rewrite (translate_free l ([CR] ++ join [CR] (l2 :: lines)) Hcr).
    rewrite (translate_free l ([LF] ++ join [LF] (l2 :: lines)) Hcr).
    cbn [app]. rewrite translate_crlf, I1.
    rewrite translate_cr, I2.
    + split; [reflexivity|]. split; [reflexivity|].
      cbn [translate_newlines]. change (N.eqb LF CR) with false. cbv iota.
      now rewrite I3.
    + apply join_starts; [assumption|]. simpl; intros [E|[]]; discriminate E.
Qed.

(** *** White space around the text *)

Lemma lines_cons_lf (s : str) : split [LF] (LF :: s) = [] :: split [LF] s.
Proof. rewrite split_eq by discriminate. reflexivity. Qed.

Lemma lines_app_lf (s : str) : split [LF] (s ++ [LF]) = split [LF] s ++ [[]].
Proof.
  induction s as [|c s IH].
  - reflexivity.
  - change ((c :: s) ++ [LF]) with (c :: (s ++ [LF])).
    rewrite (split_eq [LF] (c :: s ++ [LF])), (split_eq [LF] (c :: s)) by discriminate.
    rewrite !cut_cons. cbn [starts_with].
    destruct (N.eqb LF c); cbn [andb skipn List.length].
    + now rewrite IH.
    + rewrite (split_eq [LF] (s ++ [LF])), (split_eq [LF] s) in IH by discriminate.
      destruct (cut [LF] (s ++ [LF])) as [[a b]|], (cut [LF] s) as [[a' b']|];
        cbn [app] in IH; try (injection IH as -> IH; now rewrite IH).
      destruct (split [LF] b'); discriminate IH.
Qed.

Lemma cut2_cons_other (w : char) (s : str) :
  w <> LF ->
  cut [LF; LF] (w :: s)
  = match cut [LF; LF] s with
    | Some (a, b) => Some (w :: a, b)
    | None => None
    end.
Proof. intros Hw. now rewrite cut_cons, starts2_other. Qed.

Lemma cut2_app_other (w : char) (s : str) :
  w <> LF ->
  cut [LF; LF] (s ++ [w])
  = match cut [LF; LF] s with
    | Some (a, b) => Some (a, b ++ [w])
    | None => None
    end.
Proof.
  intros Hw; induction s as [|c s IH].
  - simpl app. rewrite cut2_cons_other by assumption. reflexivity.
  - change ((c :: s) ++ [w]) with (c :: (s ++ [w])). rewrite !cut_cons.
    destruct s as [|d s].
    + cbn [app] in *. cbn [starts_with].
      destruct (N.eqb_spec LF w) as [E|_]; [congruence|].
      rewrite !andb_false_r. rewrite IH. reflexivity.
    + change (starts_with [LF; LF] (c :: (d :: s) ++ [w]))
        with (starts_with [LF; LF] (c :: d :: s)).
      destruct (starts_with [LF; LF] (c :: d :: s)); [reflexivity|].
      rewrite IH. destruct (cut [LF; LF] (d :: s)) as [[a b]|]; reflexivity.
Qed.

Lemma split2_cons_other (w : char) (s : str) :
  w <> LF ->
  split [LF; LF] (w :: s)
  = match split [LF; LF] s with
    | p :: rest => (w :: p) :: rest
    | [] => []
    end.
Proof.
  intros Hw. rewrite (split_eq _ (w :: s)), (split_eq _ s) by apply two_newlines.
  rewrite cut2_cons_other by assumption.
  destruct (cut [LF; LF] s) as [[a b]|]; reflexivity.
Qed.

Lemma splitn2_app_other (w : char) (n : nat) (s : str) :
  w <> LF ->
  exists X p,
    splitn n [LF; LF] s = X ++ [p] /\ splitn n [LF; LF] (s ++ [w]) = X ++ [p ++ [w]].
Proof.
  intros Hw; revert s; induction n as [|n IH]; intros s; simpl.
  - exists [], s; split; reflexivity.
  - rewrite cut2_app_other by assumption.
    destruct (cut [LF; LF] s) as [[a b]|].
    + destruct (IH b) as (X & p & -> & ->). exists (a :: X), p; split; reflexivity.
    + exists [], s; split; reflexivity.
Qed.

Lemma split2_app_other (w : char) (s : str) :
  w <> LF ->
  exists X p,
    split [LF; LF] s = X ++ [p] /\ split [LF; LF] (s ++ [w]) = X ++ [p ++ [w]].
Proof.
  intros Hw. unfold split.
  destruct (splitn2_app_other w (List.length (s ++ [w])) s Hw) as (X & p & H1 & H2).
  exists X, p; split; [|assumption].
  rewrite <- H1. apply splitn_enough; [apply two_newlines | lia | rewrite length_app; lia].
Qed.

Lemma runs_cons_sep (sepl : str -> bool) (l : str) (L : list str) :
  sepl l = true -> runs sepl (l :: L) = runs sepl L.
Proof.
  intros Hl; unfold runs; simpl. destruct (runs_from sepl L) as [cur rest].
  rewrite Hl. reflexivity.
Qed.

(** One character of white space before or after the text changes no block. *)
Lemma blocks_cons_space (w : char) (s : str) :
  isspace w = true -> blocks (w :: s) = blocks s.
Proof.
  intros Hw. destruct (N.eqb_spec w LF) as [->|Hn].
  - rewrite !blocks_runs, lines_cons_lf. now rewrite runs_cons_sep.
  - rewrite !blocks_filter_map, split2_cons_other by assumption.
    destruct (split [LF; LF] s) as [|p rest]; [reflexivity|].
    cbn [map]. now rewrite strip_cons_space.
Qed.

Lemma blocks_app_space (w : char) (s : str) :
  isspace w = true -> blocks (s ++ [w]) = blocks s.
Proof.
  intros Hw. destruct (N.eqb_spec w LF) as [->|Hn].
  - rewrite !blocks_runs, lines_app_lf.
    rewrite runs_app_sep by reflexivity. cbn [runs runs_from push]. now rewrite app_nil_r.
  - rewrite !blocks_filter_map.
    destruct (split2_app_other w s Hn) as (X & p & -> & ->).
    rewrite !map_app, !filter_app. cbn [map]. now rewrite strip_app_space.
Qed.

Lemma blocks_space_around (w1 w2 s : str) :
  forallb isspace w1 = true -> forallb isspace w2 = true ->
  blocks (w1 ++ s ++ w2) = blocks s.
Proof.
  intros H1 H2. induction w1 as [|c w1 IH].
  - clear H1. simpl app. induction w2 as [|c w2 IH] using rev_ind.
    + now rewrite app_nil_r.
    + rewrite forallb_app in H2. apply andb_true_iff in H2 as [H2 Hc].
      simpl in Hc. rewrite andb_true_r in Hc.
      rewrite app_assoc, blocks_app_space by assumption. now apply IH.
  - simpl in H1. apply andb_true_iff in H1 as [Hc H1].
    change ((c :: w1) ++ s ++ w2) with (c :: (w1 ++ s ++ w2)).
    rewrite blocks_cons_space by assumption. now apply IH.
Qed.

(** *** Trimmed blocks *)

Lemma lstrip_app_char (u : str) (c : char) :
  lstrip (u ++ [c]) = if forallb isspace u then lstrip [c] else lstrip u ++ [c].
Proof.
  induction u as [|x u IH]; simpl; [reflexivity|].
  destruct (isspace x); simpl; [assumption | reflexivity].
Qed.

Lemma rstrip_cons (c : char) (t : str) :
  rstrip (c :: t) = if forallb isspace t then rev (lstrip [c]) else c :: rstrip t.
Proof.
  unfold rstrip. simpl rev. rewrite lstrip_app_char, forallb_rev.
  destruct (forallb isspace t); [reflexivity|].
  rewrite rev_app_distr. reflexivity.
Qed.

Lemma rstrip_all (t : str) : forallb isspace t = true -> rstrip t = [].
Proof.
  intros H; unfold rstrip. rewrite lstrip_all; [reflexivity | now rewrite forallb_rev].
Qed.

Lemma lstrip_rstrip (t : str) : lstrip (rstrip t) = rstrip (lstrip t).
Proof.
  induction t as [|c t IH]; [reflexivity|].
  rewrite rstrip_cons. cbn [lstrip].
  destruct (forallb isspace t) eqn:Et; destruct (isspace c) eqn:Ec.
  - rewrite (lstrip_all t Et). reflexivity.
  - rewrite rstrip_cons, Et. cbn [lstrip rev app]. now rewrite Ec.
  - cbn [lstrip]. now rewrite Ec.
  - cbn [lstrip]. rewrite Ec, rstrip_cons, Et. reflexivity.
Qed.

Lemma lstrip_idem (t : str) : lstrip (lstrip t) = lstrip t.
Proof.
  induction t as [|c t IH]; [reflexivity|]. cbn [lstrip].
  destruct (isspace c) eqn:Ec; [assumption|]. cbn [lstrip]. now rewrite Ec.
Qed.

Lemma rstrip_idem (t : str) : rstrip (rstrip t) = rstrip t.
Proof. unfold rstrip. now rewrite rev_involutive, lstrip_idem. Qed.

(** Trimming twice is trimming once. *)
Lemma strip_idem (s : str) : strip (strip s) = strip s.
Proof.
  unfold strip. now rewrite lstrip_rstrip, lstrip_idem, rstrip_idem.
Qed.

Lemma blocks_trimmed (content : str) :
  Forall (fun b => strip b = b /\ b <> []) (blocks content).
Proof.
  unfold blocks. apply Forall_map. apply Forall_forall; intros p Hp.
  apply filter_In in Hp as [_ Hp]. split; [apply strip_idem|].
  intros E; rewrite E in Hp; discriminate.
Qed.

(** C7 (amended): the text, read with the ends of lines made [\n], is cut
    at its empty lines: the blocks are the runs of lines between empty
    lines, each trimmed, those that trim to nothing left out.  A line of
    white space alone does not separate blocks; when every blank line of the
    file is empty, the blocks are the runs of lines between blank lines.
    White space around the text changes no block, every block is trimmed,
    and every block gives one record. *)
Theorem blocks_at_empty_lines {F} (lib : library F) (content : str) :
  blocks content
  = filter nonempty (map block_text (runs is_empty (split [LF] content)))
  /\ ((forall l, In l (split [LF] content) -> blank l = true -> l = []) ->
      blocks content = spec_blocks content)
  /\ (forall w1 w2,
        forallb isspace w1 = true -> forallb isspace w2 = true ->
        blocks (w1 ++ content ++ w2) = blocks content)
  /\ Forall (fun b => strip b = b /\ b <> []) (blocks content)
  /\ Forall (fun b => exists r, parse_block lib b = Ok r) (blocks content)
  /\ (forall lines,
        Forall (fun l => ~ In CR l /\ ~ In LF l) lines ->
        translate_newlines (join [CR; LF] lines) = join [LF] lines
        /\ translate_newlines (join [CR] lines) = join [LF] lines
        /\ translate_newlines (join [LF] lines) = join [LF] lines).
Proof.
  split; [apply blocks_runs|]. split; [apply blocks_spec|].
  split; [intros w1 w2; apply blocks_space_around|].
  split; [apply blocks_trimmed|].
  split; [|apply newline_conventions].
  apply Forall_forall; intros b _. exists (record lib b). apply parse_block_record.
Qed.

(** ** The properties on sample files *)

(** A block with a model line and a category line is kept, one without the
    category line is not. *)
Lemma kept_iff_both_lines_sample :
  exists rows,
    parse_text_log Sample.lib
      (Sample.text_file (py "log.txt") (py "Model: gpt-4\nCategory: reasoning\n\nModel: x"))
      (py "log.txt")
    = Ok (frame_or_none rows)
    /\ Forall2 (fun b r => parse_block Sample.lib b = Ok r)
         (filter (fun b => has_line Model b && has_line Category b)
            (blocks (py "Model: gpt-4\nCategory: reasoning\n\nModel: x")))
         rows
    /\ (forall b r,
          In b (blocks (py "Model: gpt-4\nCategory: reasoning\n\nModel: x")) ->
          parse_block Sample.lib b = Ok r ->
          keep r = has_line Model b && has_line Category b).
Proof.
  apply (kept_iff_both_lines Sample.lib
           (Sample.text_file (py "log.txt") (py "Model: gpt-4\nCategory: reasoning\n\nModel: x"))
           (py "log.txt") (py "Model: gpt-4\nCategory: reasoning\n\nModel: x")).
  vm_compute; reflexivity.
Defined.

(** A block whose model line has nothing after the colon is kept, with the
    empty text as its model. *)
Lemma empty_model_kept :
  parse_text_log Sample.lib
    (Sample.text_file (py "log.txt") (py "Model:\nCategory: x")) (py "log.txt")
  = Ok (Some (DataFrame [PDict [(py "model", PStr []); (py "category", PStr (py "x"))]])).
Proof. vm_compute; reflexivity. Qed.

(** A model line, with white space around it. *)
Lemma label_assigns_value_sample :
  exists a b,
    strip (py "  Model: gpt-4 ") = a ++ COLON :: b
    /\ ~ In COLON a
    /\ process_line Sample.lib [] (py "  Model: gpt-4 ")
       = Ok (match field_value Sample.lib Model (strip b) with
             | Some v => dict_set (key Model) v []
             | None => []
             end)
    /\ (Model = Model \/ Model = Category \/ Model = Language ->
        process_line Sample.lib [] (py "  Model: gpt-4 ")
        = Ok (dict_set (key Model) (PStr (strip b)) [])).
Proof.
  apply (label_assigns_value Sample.lib [] (py "  Model: gpt-4 ") Model).
  - vm_compute; reflexivity.
  - intros g Hg; destruct g; simpl in Hg; lia.
Defined.

(** The label in capitals is in the line, in the reading of the
    specification, and the line assigns nothing. *)
Lemma uppercase_label_ignored :
  matches_any_casing Model (py "MODEL: gpt-4") = true
  /\ process_line Sample.lib [] (py "MODEL: gpt-4") = Ok [].
Proof. split; vm_compute; reflexivity. Qed.

(** [data.yaml] is refused with its suffix in the message; [LOG.TXT] is read
    as a text log. *)
Lemma load_data_by_suffix_sample :
  load_data Sample.lib (Sample.text_file (py "data.yaml") (py "model: x"))
    {| path_str := py "data.yaml"; suffix := py ".yaml" |}
  = Raise (Exn ValueError (py "Unsupported file type: .yaml"))
  /\ load_data Sample.lib (Sample.text_file (py "LOG.TXT") (py "model: x\ncategory: y"))
       {| path_str := py "LOG.TXT"; suffix := py ".TXT" |}
     = Ok (DataFrame [PDict [(py "model", PStr (py "x")); (py "category", PStr (py "y"))]]).
Proof.
  split.
  - destruct (load_data_by_suffix Sample.lib
                (Sample.text_file (py "data.yaml") (py "model: x"))
                {| path_str := py "data.yaml"; suffix := py ".yaml" |})
      as (_ & _ & _ & H).
    destruct H as [H _]; [discriminate | discriminate | discriminate |].
    rewrite H. vm_compute; reflexivity.
  - destruct (load_data_by_suffix Sample.lib
                (Sample.text_file (py "LOG.TXT") (py "model: x\ncategory: y"))
                {| path_str := py "LOG.TXT"; suffix := py ".TXT" |})
      as (_ & _ & H & _).
    rewrite H; vm_compute; reflexivity.
Defined.

(** A later temperature line that does not parse leaves the temperature of
    an earlier line in the record. *)
Lemma unparsed_temperature_keeps_earlier :
  chosen (strip (py "Temperature: abc")) = Some Temperature
  /\ py_float Sample.lib (value_text (strip (py "Temperature: abc")))
     = Raise (Exn ValueError (py "could not convert string to float: 'abc'"))
  /\ parse_block Sample.lib (py "Temperature: 0.5\nTemperature: abc")
     = Ok [(py "temperature", PFloat (Sample.Dec false 5 1))].
Proof. repeat split; vm_compute; reflexivity. Qed.

(** The only temperature line of the block does not parse: no temperature. *)
Lemma temperature_last_parsed_sample :
  exists test,
    parse_block Sample.lib (py "Model: m\nTemperature: abc") = Ok test
    /\ dict_get (py "temperature") test = None.
Proof.
  destruct (temperature_last_parsed Sample.lib (py "Model: m\nTemperature: abc"))
    as (test & H1 & H2 & _).
  exists test. split; [exact H1|]. rewrite H2. vm_compute; reflexivity.
Defined.

(** A file that holds the number 5 is loaded as a frame of one row. *)
Lemma json_scalar_loaded :
  load_data Sample.lib (Sample.text_file (py "d.json") (py "5"))
    {| path_str := py "d.json"; suffix := py ".json" |}
  = Ok (DataFrame [PInt 5]).
Proof. vm_compute; reflexivity. Qed.

(** The raw records of a file that holds the number 5. *)
Lemma json_value_to_rows_sample :
  exists rows,
    load_data Sample.lib (Sample.text_file (py "d.json") (py "5"))
      {| path_str := py "d.json"; suffix := py ".json" |}
    = pd_DataFrame Sample.lib rows
    /\ (forall l, @PInt Sample.dec 5 = PList l -> rows = l)
    /\ ((forall l, @PInt Sample.dec 5 <> PList l) -> rows = [PInt 5]).
Proof.
  apply (json_value_to_rows Sample.lib (Sample.text_file (py "d.json") (py "5"))
           {| path_str := py "d.json"; suffix := py ".json" |} (py "5") (PInt 5));
    vm_compute; reflexivity.
Defined.

(** A line of one space between two groups of lines: two blocks for the
    specification, one for the source. *)
Lemma space_line_does_not_split :
  spec_blocks (py "Model: a\nCategory: b\n \nModel: c\nCategory: d")
  = [py "Model: a\nCategory: b"; py "Model: c\nCategory: d"]
  /\ blocks (py "Model: a\nCategory: b\n \nModel: c\nCategory: d")
     = [py "Model: a\nCategory: b\n \nModel: c\nCategory: d"].
Proof. split; vm_compute; reflexivity. Qed.

(** A text whose blank lines are all empty. *)
Lemma blocks_at_empty_lines_sample :
  blocks (py "Model: a\n\n\nModel: b\n") = spec_blocks (py "Model: a\n\n\nModel: b\n").
Proof.
  destruct (blocks_at_empty_lines Sample.lib (py "Model: a\n\n\nModel: b\n"))
    as (_ & H & _).
  apply H. intros l Hin Hb. vm_compute in Hin.
  destruct Hin as [<-|[<-|[<-|[<-|[<-|[]]]]]]; first [reflexivity | discriminate Hb].
Defined.

(** A model in one block and a category in another: no record is kept and
    the run ends with the error. *)
Lemma no_valid_records_fatal_sample :
  parse_text_log Sample.lib
    (Sample.text_file (py "log.txt") (py "Model: m\n\nCategory: c")) (py "log.txt")
  = Ok None
  /\ load_data Sample.lib
       (Sample.text_file (py "log.txt") (py "Model: m\n\nCategory: c"))
       {| path_str := py "log.txt"; suffix := py ".txt" |}
     = Raise (Exn ValueError (py "Failed to parse text file"))
  /\ generate_visualizations Sample.lib
       (Sample.text_file (py "log.txt") (py "Model: m\n\nCategory: c"))
       Sample.no_render {| path_str := py "log.txt"; suffix := py ".txt" |} Sample.Ready
     = Status false 5 (py "Error: " ++ py "Failed to parse text file")
         (output_dir Sample.Ready) (charts Sample.Ready) (tables Sample.Ready)
         (Some (py "Failed to parse text file")).
Proof.
  apply (no_valid_records_fatal Sample.lib
           (Sample.text_file (py "log.txt") (py "Model: m\n\nCategory: c"))
           Sample.no_render {| path_str := py "log.txt"; suffix := py ".txt" |}
           Sample.Ready (py "Model: m\n\nCategory: c")).
  - vm_compute; reflexivity.
  - vm_compute; reflexivity.
  - intros b r Hin Hb. vm_compute in Hin.
    destruct Hin as [<-|[<-|[]]]; vm_compute in Hb; injection Hb as <-; reflexivity.
Defined.

(** A file that is not UTF-8 gives [None]. *)
Lemma parse_text_log_total_sample :
  parse_text_log Sample.lib (Sample.one_file (py "log.txt") [xff]) (py "log.txt") = Ok None.
Proof.
  destruct (parse_text_log_total Sample.lib (Sample.one_file (py "log.txt") [xff]) (py "log.txt"))
    as (_ & _ & H & _).
  apply (H [xff]); vm_compute; reflexivity.
Defined.

(** A temperature label and a success label on one line: the temperature
    branch is taken, the text after the first colon is no number, and no
    field is assigned. *)
Lemma two_labels_no_field :
  matches Temperature (strip (py "Temperature: 0.7 Success: true")) = true
  /\ matches Success (strip (py "Temperature: 0.7 Success: true")) = true
  /\ process_line Sample.lib [] (py "Temperature: 0.7 Success: true") = Ok [].
Proof. repeat split; vm_compute; reflexivity. Qed.

(** Both labels on one line: the model branch wins, and its value is the
    text after the first colon. *)
Lemma line_precedence_sample :
  process_line Sample.lib [] (py "category: b model: a")
  = Ok [(py "model", PStr (py "b model: a"))].
Proof.
  destruct (line_precedence Sample.lib [] (py "category: b model: a")) as (test & H1 & _).
  rewrite H1. vm_compute in H1. injection H1 as <-. reflexivity.
Defined.

(** * Further properties *)

(** ** Records of the text log *)

Section Records.

Context {F : Type} (lib : library F).

Lemma apply_line_get (f : field) (test : dict F) (l : str) :
  dict_get (key f) (apply_line lib test l)
  = match last_opt (line_values lib f l) with
    | Some v => Some v
    | None => dict_get (key f) test
    end.
Proof.
  unfold apply_line, line_values.
  destruct (chosen (strip l)) as [g|]; [|reflexivity].
  destruct (field_eqb f g) eqn:E.
  - apply field_eqb_eq in E; subst g.
    destruct (field_value lib f (value_text (strip l))); [apply dict_get_set_same | reflexivity].
  - destruct (field_value lib g (value_text (strip l))); [|reflexivity].
    apply dict_get_set_other. intros H; apply key_inj in H; subst g.
    assert (field_eqb f f = true) by now apply field_eqb_eq. congruence.
Qed.

Lemma fold_get (f : field) (lines : list str) (test : dict F) :
  dict_get (key f) (fold_left (apply_line lib) lines test)
  = match last_opt (flat_map (line_values lib f) lines) with
    | Some v => Some v
    | None => dict_get (key f) test
    end.
Proof.
  revert test; induction lines as [|l lines IH]; intros test; simpl; [reflexivity|].
  rewrite IH, last_opt_app, apply_line_get.
  destruct (last_opt (flat_map (line_values lib f) lines)); reflexivity.
Qed.

(** X1: in a block, a later line of a field overwrites an earlier one.  The
    value of each field in the record is the one given by the last line of
    the block that assigns the field, and the field is absent when no line
    assigns it. *)
Theorem last_write_wins (block : str) (f : field) :
  exists test,
    parse_block lib block = Ok test
    /\ dict_get (key f) test
       = last_opt (flat_map (line_values lib f) (split [LF] block)).
Proof.
  exists (record lib block). split; [apply parse_block_record|].
  unfold record. rewrite fold_get.
  destruct (last_opt (flat_map (line_values lib f) (split [LF] block))); reflexivity.
Qed.

(** X2: lines that hold no label are ignored: the loop over the lines of a
    block gives the same record with these lines taken out. *)
Theorem unrecognised_lines_ignored (lines : list str) (test : dict F) :
  for_lines lib lines test = for_lines lib (filter recognised lines) test.
Proof.
  rewrite !for_lines_fold. f_equal.
  revert test; induction lines as [|l lines IH]; intros test; simpl; [reflexivity|].
  unfold recognised at 1. unfold apply_line at 2.
  destruct (chosen (strip l)) as [g|] eqn:E.
  - simpl. rewrite <- IH. unfold apply_line at 3. now rewrite E.
  - apply IH.
Qed.

Lemma dict_has_in (k : str) (d : dict F) :
  dict_has k d = true <-> In k (map fst d).
Proof.
  unfold dict_has. induction d as [|[k' v'] d IH]; simpl; [split; [discriminate | tauto]|].
  destruct (str_eqb k k') eqn:E.
  - apply str_eqb_eq in E; subst. split; auto.
  - apply str_eqb_neq in E. rewrite IH. split; [auto | intros [H|H]; [congruence | assumption]].
Qed.

Lemma dict_set_keys (k : str) (v : pyval F) (d : dict F) :
  map fst (dict_set k v d) = if dict_has k d then map fst d else map fst d ++ [k].
Proof.
  unfold dict_has. induction d as [|[k' v'] d IH]; simpl; [reflexivity|].
  destruct (str_eqb k k') eqn:E; simpl.
  - apply str_eqb_eq in E; now subst.
  - rewrite IH. destruct (dict_get k d); reflexivity.
Qed.

Lemma dict_set_nodup (k : str) (v : pyval F) (d : dict F) :
  NoDup (map fst d) -> NoDup (map fst (dict_set k v d)).
Proof.
  intros H. rewrite dict_set_keys. destruct (dict_has k d) eqn:E; [assumption|].
  apply NoDup_app; [assumption | repeat constructor; simpl; tauto |].
  intros x Hx [<-|[]]. apply dict_has_in in Hx. congruence.
Qed.

Lemma dict_set_forall (P : str * pyval F -> Prop) (k : str) (v : pyval F) (d : dict F) :
  P (k, v) -> Forall P d -> Forall P (dict_set k v d).
Proof.
  intros Hkv; induction 1 as [|[k' v'] d Hx Hd IH]; simpl; [repeat constructor; assumption|].
  destruct (str_eqb k k'); constructor; assumption.
Qed.

Lemma field_value_typed (f : field) (line : str) (v : pyval F) :
  field_value lib f (value_text line) = Some v -> typed f v.
Proof.
  assert (Hs : strip (value_text line) = value_text line).
  { unfold value_text. destruct (cut [COLON] line) as [[a b]|]; [apply strip_idem | reflexivity]. }
  destruct f; unfold field_value, typed; intros H.
  1-3: injection H as <-; exists (value_text line); split; [reflexivity | exact Hs].
  - destruct (py_float lib (value_text line)) as [x|e]; [|discriminate].
    injection H as <-. exists x; reflexivity.
  - injection H as <-.
    match goal with |- context [if ?b then _ else _] => destruct b end; auto.
Qed.

Lemma apply_line_well_formed (test : dict F) (l : str) :
  well_formed test -> well_formed (apply_line lib test l).
Proof.
  intros [Hn Hf]; unfold apply_line.
  destruct (chosen (strip l)) as [g|]; [|split; assumption].
  destruct (field_value lib g (value_text (strip l))) eqn:E; [|split; assumption].
  split; [now apply dict_set_nodup|].
  apply dict_set_forall; [|assumption].
  exists g; split; [reflexivity | eapply field_value_typed; eassumption].
Qed.

Lemma record_well_formed (block : str) : well_formed (record lib block).
Proof.
  unfold record.
  assert (H : forall lines test, well_formed test ->
                well_formed (fold_left (apply_line lib) lines test)).
  { induction lines as [|l lines IH]; intros test Ht; simpl; [assumption|].
    apply IH, apply_line_well_formed, Ht. }
  apply H. split; constructor.
Qed.

Lemma well_formed_length (d : dict F) : well_formed d -> List.length d <= 5.
Proof.
  intros [Hn Hf].
  rewrite <- (length_map fst d).
  change 5 with (List.length (map key precedence)).
  apply NoDup_incl_length; [assumption|].
  intros k Hk. apply in_map_iff in Hk as ([k' v] & <- & Hin).
  rewrite Forall_forall in Hf. destruct (Hf _ Hin) as (f & -> & _).
  apply in_map. destruct f; simpl; tauto.
Qed.

(** X3: the record of a block never holds a key twice; its keys are among
    the five field names, so it has at most five entries; [model],
    [category] and [language] hold trimmed text, [temperature] a float and
    [success] 0 or 1. *)
Theorem record_invariant (block : str) :
  exists test,
    parse_block lib block = Ok test
    /\ well_formed test
    /\ List.length test <= 5.
Proof.
  exists (record lib block). split; [apply parse_block_record|].
  split; [apply record_well_formed | apply well_formed_length, record_well_formed].
Qed.

Lemma filter_length_le {A} (p : A -> bool) (l : list A) :
  List.length (filter p l) <= List.length l.
Proof. induction l as [|x l IH]; simpl; [lia|]. destruct (p x); simpl; lia. Qed.

Lemma frame_or_none_some (rows : list (dict F)) (df : frame F) :
  frame_or_none rows = Some df -> rows <> [] /\ frame_rows df = map PDict rows.
Proof.
  destruct rows as [|d ds]; [discriminate|].
  intros H; injection H as <-. split; [discriminate | reflexivity].
Qed.

(** X4: every row of the frame of a text log is a well-formed record that
    has a model and a category; the frame is never empty, and it has at most
    one row for each block of the file. *)
Theorem frame_rows_valid (fs : filesystem) (filepath : str) (df : frame F) :
  parse_text_log lib fs filepath = Ok (Some df) ->
  frame_rows df <> []
  /\ Forall (fun row => exists d, row = PDict d /\ well_formed d
                        /\ dict_has (py "model") d = true
                        /\ dict_has (py "category") d = true)
       (frame_rows df)
  /\ exists content,
       read_text fs filepath = Ok content
       /\ List.length (frame_rows df) <= List.length (blocks content).
Proof.
  rewrite parse_text_log_read.
  destruct (read_text fs filepath) as [content|e]; [|discriminate].
  unfold records.
  intros H; injection H as H. apply frame_or_none_some in H as [Hne ->].
  split; [intros E; apply map_eq_nil in E; contradiction|]. split.
  - apply Forall_map. apply Forall_forall. intros d' Hd.
    apply filter_In in Hd as [Hin Hk]. apply in_map_iff in Hin as (b & <- & _).
    exists (record lib b). split; [reflexivity|]. split; [apply record_well_formed|].
    unfold keep in Hk. now apply andb_true_iff in Hk.
  - exists content. split; [reflexivity|].
    rewrite length_map. etransitivity; [apply filter_length_le|]. now rewrite length_map.
Qed.

End Records.

(** ** Text logs as a whole *)

Lemma blocks_blank (content : str) : forallb isspace content = true -> blocks content = [].
Proof.
  intros H. rewrite <- (app_nil_r content).
  change (content ++ []) with (content ++ [] ++ []).
  rewrite blocks_space_around; [reflexivity | assumption | reflexivity].
Qed.

(** X5: for a text log the caller sees one error only.  Loading a [.txt]
    file gives a frame with at least one row, or raises
    [ValueError('Failed to parse text file')]: that is the error for a file
    that cannot be opened or decoded, and for a file without a record that
    has a model and a category, a file of white space among them. *)
Theorem text_log_outcomes {F} (lib : library F) (fs : filesystem) (filepath : Path) :
  lower (suffix filepath) = py ".txt" ->
  ((exists df, load_data lib fs filepath = Ok df /\ frame_rows df <> [])
   \/ load_data lib fs filepath = Raise (Exn ValueError (py "Failed to parse text file")))
  /\ (forall e, read_text fs (path_str filepath) = Raise e ->
      load_data lib fs filepath = Raise (Exn ValueError (py "Failed to parse text file")))
  /\ (forall content,
        read_text fs (path_str filepath) = Ok content ->
        forallb isspace content = true ->
        load_data lib fs filepath = Raise (Exn ValueError (py "Failed to parse text file"))).
Proof.
  intros Hs. rewrite (load_data_txt lib fs filepath Hs), parse_text_log_read.
  split; [|split].
  - destruct (read_text fs (path_str filepath)) as [content|e]; [|right; reflexivity].
    destruct (frame_or_none (records lib content)) as [df|] eqn:E; [|right; reflexivity].
    left. exists df. split; [reflexivity|].
    apply frame_or_none_some in E as [Hne ->].
    intros E; apply map_eq_nil in E; contradiction.
  - intros e ->; reflexivity.
  - intros content -> Hb. unfold records. rewrite (blocks_blank content Hb). reflexivity.
Qed.

Lemma lines_cons_other (w : char) (s : str) :
  w <> LF ->
  split [LF] (w :: s)
  = match split [LF] s with
    | l0 :: L => (w :: l0) :: L
    | [] => []
    end.
Proof.
  intros Hw. rewrite (split_eq [LF] (w :: s)), (split_eq [LF] s) by discriminate.
  rewrite cut_cons. cbn [starts_with].
  destruct (N.eqb_spec LF w) as [E|_]; [congruence|]. cbn [andb].
  destruct (cut [LF] s) as [[a b]|]; reflexivity.
Qed.

(** The lines of two texts put together with a newline. *)
Lemma lines_app (a b : str) :
  split [LF] (a ++ LF :: b) = split [LF] a ++ split [LF] b.
Proof.
  induction a as [|c a IH].
  - simpl app. rewrite lines_cons_lf. reflexivity.
  - change ((c :: a) ++ LF :: b) with (c :: (a ++ LF :: b)).
    destruct (N.eqb_spec c LF) as [->|Hc].
    + rewrite !lines_cons_lf, IH. reflexivity.
    + rewrite !lines_cons_other, IH by assumption.
      destruct (split [LF] a) as [|l0 L] eqn:E; [|reflexivity].
      exfalso; revert E; apply splitn_nonempty.
Qed.

Lemma blocks_app (c1 c2 : str) :
  blocks (c1 ++ [LF; LF] ++ c2) = blocks c1 ++ blocks c2.
Proof.
  rewrite !blocks_runs.
  change (c1 ++ [LF; LF] ++ c2) with (c1 ++ LF :: (LF :: c2)).
  rewrite lines_app, lines_cons_lf.
  rewrite runs_app_sep by reflexivity.
  now rewrite map_app, filter_app.
Qed.

(** X6: two logs put together with an empty line between them give the
    records of the first followed by the records of the second. *)
Theorem records_concat {F} (lib : library F) (c1 c2 : str) (rows1 rows2 : list (dict F)) :
  for_blocks lib (blocks c1) [] = Ok rows1 ->
  for_blocks lib (blocks c2) [] = Ok rows2 ->
  for_blocks lib (blocks (c1 ++ [LF; LF] ++ c2)) [] = Ok (rows1 ++ rows2).
Proof.
  rewrite !for_blocks_filter. simpl app.
  intros H1 H2; injection H1 as <-; injection H2 as <-.
  change (c1 ++ LF :: LF :: c2) with (c1 ++ [LF; LF] ++ c2).
  now rewrite blocks_app, map_app, filter_app.
Qed.

(** ** allowed_file *)

Lemma rcut_char (c : char) (s a b : str) :
  rcut [c] s = Some (a, b) -> s = a ++ c :: b /\ ~ In c b.
Proof.
  unfold rcut. simpl rev.
  destruct (cut [c] (rev s)) as [[a' b']|] eqn:E; [|discriminate].
  intros H; injection H as <- <-.
  destruct (cut_char_first _ _ _ _ E) as [Hr Hn].
  split.
  - rewrite <- (rev_involutive s), Hr, rev_app_distr. simpl. now rewrite <- app_assoc.
  - now rewrite <- in_rev.
Qed.

Lemma rcut_char_some (c : char) (s : str) :
  In c s -> exists a b, rcut [c] s = Some (a, b).
Proof.
  intros Hin. unfold rcut. simpl rev.
  destruct (cut [c] (rev s)) as [[a' b']|] eqn:E; [eauto|].
  apply cut_char_none in E. exfalso; apply E. now rewrite <- in_rev.
Qed.

Lemma contains_char (c : char) (s : str) : contains [c] s = true <-> In c s.
Proof.
  rewrite contains_true. split.
  - intros (a & b & ->). apply in_or_app; right; now left.
  - intros H. apply in_split in H as (a & b & ->). exists a, b; reflexivity.
Qed.

(** The last occurrence of a character is where it is. *)
Lemma last_occurrence (c : char) (a b a' b' : str) :
  a ++ c :: b = a' ++ c :: b' -> ~ In c b -> ~ In c b' -> a = a' /\ b = b'.
Proof.
  revert a'; induction a as [|x a IH]; intros [|y a'] H Hb Hb'; simpl in H.
  - injection H as H; auto.
  - injection H as _ H. exfalso; apply Hb. rewrite H. apply in_or_app; right; now left.
  - injection H as _ H. exfalso; apply Hb'. rewrite <- H. apply in_or_app; right; now left.
  - injection H as Hx H. destruct (IH a' H Hb Hb') as [Ha Hbb]. subst; auto.
Qed.

Lemma existsb_str (s : str) (l : list str) :
  existsb (str_eqb s) l = true <-> In s l.
Proof.
  rewrite existsb_exists. split.
  - intros (x & Hx & E). apply str_eqb_eq in E; now subst.
  - intros H. exists s; split; [assumption | apply str_eqb_refl].
Qed.

Lemma allowed_file_spec (name : str) :
  exists b,
    allowed_file name = Ok b
    /\ (b = true <->
        exists stem ext,
          name = stem ++ DOT :: ext /\ ~ In DOT ext /\ In (lower ext) allowed_extensions).
Proof.
  unfold allowed_file. change (py ".") with [DOT].
  destruct (contains [DOT] name) eqn:Ec.
  - apply contains_char in Ec. destruct (rcut_char_some DOT name Ec) as (a & b & Hr).
    destruct (rcut_char _ _ _ _ Hr) as [Hn Hb].
    cbn [rsplitn]. rewrite Hr. cbn [rsplitn app item nth_error bind].
    eexists; split; [reflexivity|].
    rewrite existsb_str. split.
    + intros H; exists a, b; auto.
    + intros (stem & ext & Hn' & He & Hin).
      rewrite Hn in Hn'. destruct (last_occurrence _ _ _ _ _ Hn' Hb He) as [_ ->]. assumption.
  - exists false; split; [reflexivity|]. split; [discriminate|].
    intros (stem & ext & -> & _).
    assert (contains [DOT] (stem ++ DOT :: ext) = true)
      by (apply contains_char, in_or_app; right; now left).
    congruence.
Qed.

(** X7: [allowed_file] never raises, and it accepts a name exactly when the
    name has a dot and the text after its last dot is [csv], [json] or
    [txt] in any casing of the ASCII letters. *)
Theorem allowed_file_extension (name : str) :
  exists b,
    allowed_file name = Ok b
    /\ (b = true <->
        exists stem ext,
          name = stem ++ DOT :: ext /\ ~ In DOT ext /\ In (lower ext) allowed_extensions).
Proof. apply allowed_file_spec. Qed.

Lemma lower_dot (ext : str) : lower (DOT :: ext) = DOT :: lower ext.
Proof. reflexivity. Qed.

Lemma supported_ext (filepath : Path) (ext : str) :
  suffix filepath = DOT :: ext ->
  supported filepath = existsb (str_eqb (lower ext)) allowed_extensions.
Proof. intros Hs. unfold supported. rewrite Hs, lower_dot. reflexivity. Qed.

(** X8: the check of the upload and the dispatch of the loader agree.  For a
    file name and a path whose suffix is the last dot of the name and what
    follows it, [allowed_file] accepts the name exactly when
    [generate_visualizations] has a branch for the suffix; in the other case
    loading raises the error for an unsupported type. *)
Theorem allowed_file_agrees_with_loader {F} (lib : library F) (fs : filesystem)
    (filepath : Path) (stem ext : str) :
  suffix filepath = DOT :: ext ->
  ~ In DOT ext ->
  allowed_file (stem ++ DOT :: ext) = Ok (supported filepath)
  /\ (supported filepath = false ->
      load_data lib fs filepath
      = Raise (Exn ValueError (py "Unsupported file type: " ++ suffix filepath)))
  /\ (supported filepath = true ->
      load_data lib fs filepath = (bytes <- fs (path_str filepath) ;; read_csv lib bytes)
      \/ load_data lib fs filepath
         = (content <- read_text fs (path_str filepath) ;;
            data <- json_loads lib content ;;
            pd_DataFrame lib (json_rows data))
      \/ load_data lib fs filepath
         = (df <- parse_text_log lib fs (path_str filepath) ;;
            match df with
            | None => Raise (Exn ValueError (py "Failed to parse text file"))
            | Some df => Ok df
            end)).
Proof.
  intros Hs He. split; [|split].
  - destruct (allowed_file_spec (stem ++ DOT :: ext)) as (b & -> & Hb).
    f_equal. rewrite (supported_ext filepath ext Hs).
    apply eq_true_iff_eq. rewrite Hb, existsb_str. split.
    + intros (stem' & ext' & Hn & He' & Hin).
      now destruct (last_occurrence _ _ _ _ _ Hn He He') as [_ ->].
    + intros Hin. exists stem, ext; auto.
  - unfold supported; simpl. intros H.
    apply orb_false_iff in H as [H1 H].
    apply orb_false_iff in H as [H2 H].
    apply orb_false_iff in H as [H3 _].
    apply load_data_other; now apply str_eqb_neq.
  - unfold supported; simpl. intros H.
    apply orb_true_iff in H as [H|H]; [left; apply load_data_csv; now apply str_eqb_eq|].
    apply orb_true_iff in H as [H|H]; [right; left; apply load_data_json; now apply str_eqb_eq|].
    apply orb_true_iff in H as [H|H]; [right; right; apply load_data_txt; now apply str_eqb_eq|].
    discriminate.
Qed.

(** ** A run, statement by statement *)

Section JobFacts.

Context {F W : Type} (lib : library F) (eng : engine F W).

Lemma jbind_ok {A B} (m : job W A) (k : A -> job W B) (s s' : jstate W) (a : A) :
  m s = (Ok a, s') -> jbind m k s = k a s'.
Proof. unfold jbind; now intros ->. Qed.

Lemma jbind_raise {A B} (m : job W A) (k : A -> job W B) (s s' : jstate W) (e : exn) :
  m s = (Raise e, s') -> jbind m k s = (Raise e, s').
Proof. unfold jbind; now intros ->. Qed.

Lemma quiet_call {A} (f : W -> result A * W) : quiet (call f).
Proof. intros s; unfold call. destruct (f (world s)); split; reflexivity. Qed.

Lemma quiet_bind {A B} (m : job W A) (k : A -> job W B) :
  quiet m -> (forall a, quiet (k a)) -> quiet (jbind m k).
Proof.
  intros Hm Hk s; unfold jbind. destruct (Hm s) as [H1 H2].
  destruct (m s) as [[a|e] s']; simpl in *.
  - destruct (Hk a s') as [H3 H4]. split; congruence.
  - split; assumption.
Qed.

Lemma stage_run (msg : str) (p : Z) (body : job W unit) (c : status) (h : list status) (w : W) :
  quiet body ->
  exists w',
    stage msg p body (JState c h w)
    = (Ok tt,
       JState (set_progress p (set_message msg c))
         (set_progress p (set_message msg c) :: set_message msg c :: h) w').
Proof.
  intros Hq. unfold stage, jbind, write, swallow; simpl.
  match goal with |- context [body ?s] => destruct (Hq s) as [H1 H2]; destruct (body s) as [[[]|e] [c' h' w']] end;
    simpl in *; subst; eauto.
Qed.

Ltac quiet_tac :=
  repeat match goal with
         | |- quiet (jbind _ _) => apply quiet_bind; [|intros]
         | |- quiet (call _) => apply quiet_call
         end.

Ltac run_stage :=
  match goal with
  | |- context [jbind (stage ?m ?p ?b) ?k (JState ?c ?h ?w)] =>
      let w' := fresh "w" in
      let H := fresh "H" in
      destruct (stage_run m p b c h w ltac:(quiet_tac)) as [w' H];
      rewrite (jbind_ok _ k _ _ _ H); clear H; cbv beta
  end.

(** The ways [render_job] can end: [mkdir] fails, a [glob] after the last
    step fails, or it reaches its end; the calls of the numbered steps only
    change the world. *)
Lemma render_run (df : frame F) (c : status) (h : list status) (w : W) :
  match mkdir eng (session_dir (strftime_now eng w)) w with
  | (Raise e, w1) => render_job eng df (JState c h w) = (Raise e, JState c h w1)
  | (Ok _, _) =>
      exists w9,
        let c9 := final_status (stage_writes (session_dir (strftime_now eng w))) c in
        let h9 := rev (scan (stage_writes (session_dir (strftime_now eng w))) c) ++ h in
        match glob eng (session_dir (strftime_now eng w)) (py "**/*.png") w9 with
        | (Raise e, wa) => render_job eng df (JState c h w) = (Raise e, JState c9 h9 wa)
        | (Ok pngs, wa) =>
            match glob eng (session_dir (strftime_now eng w)) (py "**/*.csv") wa with
            | (Raise e, wb) =>
                render_job eng df (JState c h w)
                = (Raise e, JState (set_charts pngs c9) (set_charts pngs c9 :: h9) wb)
            | (Ok csvs, wb) =>
                render_job eng df (JState c h w)
                = (Ok tt,
                   JState (final_status (final_writes pngs csvs) c9)
                     (rev (scan (final_writes pngs csvs) c9) ++ h9) wb)
            end
        end
  end.
Proof.
  unfold render_job.
  rewrite (jbind_ok _ _ _ (JState c h w) (strftime_now eng w)) by reflexivity.
  cbv beta zeta. set (dir := session_dir (strftime_now eng w)).
  destruct (mkdir eng dir w) as [[[]|e] w1] eqn:Em.
  - rewrite (jbind_ok _ _ _ (JState c h w1) tt) by (unfold call; cbn [world cur seen]; now rewrite Em).
    rewrite (jbind_ok _ _ _ _ tt) by reflexivity.
    rewrite (jbind_ok _ _ _ _ tt) by reflexivity.
    cbv beta. cbn [cur seen world].
    do 9 run_stage.
    match goal with
    | |- context [jbind (call (glob eng dir _)) _ (JState _ _ ?w')] => exists w'; set (wz := w')
    end.
    destruct (glob eng dir (py "**/*.png") wz) as [[pngs|e] wa] eqn:Eg1.
    + rewrite (jbind_ok _ _ _ (JState _ _ wa) pngs) by (unfold call; cbn [world cur seen]; now rewrite Eg1).
      rewrite (jbind_ok _ _ _ _ tt) by reflexivity. cbn [cur seen world].
      destruct (glob eng dir (py "**/*.csv") wa) as [[csvs|e] wb] eqn:Eg2.
      * rewrite (jbind_ok _ _ _ (JState _ _ wb) csvs) by (unfold call; cbn [world cur seen]; now rewrite Eg2).
        reflexivity.
      * rewrite (jbind_raise _ _ _ (JState _ _ wb) e) by (unfold call; cbn [world cur seen]; now rewrite Eg2).
        reflexivity.
    + rewrite (jbind_raise _ _ _ (JState _ _ wa) e) by (unfold call; cbn [world cur seen]; now rewrite Eg1).
      reflexivity.
  - rewrite (jbind_raise _ _ _ (JState c h w1) e) by (unfold call; cbn [world cur seen]; now rewrite Em).
    reflexivity.
Qed.

(** A run never raises, and it goes one of the five ways of [outcome]. *)
Lemma generate_run (fs : filesystem) (filepath : Path)
    (st : status) (h : list status) (w0 : W) :
  exists ws wf,
    outcome lib eng fs filepath w0 ws
    /\ generate_job lib eng fs filepath (JState st h w0)
       = (Ok tt, JState (final_status ws st) (rev (scan ws st) ++ h) wf).
Proof.
  unfold generate_job, finally, handle.
  do 4 (rewrite (jbind_ok _ _ _ _ tt) by reflexivity). cbn [cur seen world].
  destruct (load_data lib fs filepath) as [df|e] eqn:El.
  - rewrite (jbind_ok _ _ _ _ df) by reflexivity.
    do 2 (rewrite (jbind_ok _ _ _ _ tt) by reflexivity). cbn [cur seen world].
    match goal with
    | |- context [render_job eng df (JState ?c ?h' w0)] =>
        pose proof (render_run df c h' w0) as Hr
    end.
    set (dir := session_dir (strftime_now eng w0)) in *.
    destruct (mkdir eng dir w0) as [[[]|e] w1] eqn:Em.
    + destruct Hr as [w9 Hr]. cbv zeta in Hr.
      destruct (glob eng dir (py "**/*.png") w9) as [[pngs|e] wa] eqn:Eg1.
      * destruct (glob eng dir (py "**/*.csv") wa) as [[csvs|e] wb] eqn:Eg2.
        -- rewrite Hr. eexists _, wb. split; [eapply (Completes _ _ _ _ _ df pngs csvs w1 w9 wa wb El Em Eg1 Eg2)|].
           reflexivity.
        -- rewrite Hr. eexists _, wb.
           split; [eapply (TablesGlobFails _ _ _ _ _ df pngs e w1 w9 wa wb El Em Eg1 Eg2)|]. reflexivity.
      * rewrite Hr. eexists _, wa.
        split; [eapply (ChartsGlobFails _ _ _ _ _ df e w1 w9 wa El Em Eg1)|]. reflexivity.
    + rewrite Hr. eexists _, w1.
      split; [eapply (MkdirFails _ _ _ _ _ df e w1 El Em)|]. reflexivity.
  - rewrite (jbind_raise _ _ _ _ e) by reflexivity.
    eexists _, w0. split; [eapply (LoadFails _ _ _ _ _ e El)|]. reflexivity.
Qed.

Lemma hf_write (f : status -> status) : hist_frame (W := W) (write f).
Proof. intros c h w; reflexivity. Qed.

Lemma hf_read : hist_frame (W := W) read.
Proof. intros c h w; reflexivity. Qed.

Lemma hf_call {A} (f : W -> result A * W) : hist_frame (call f).
Proof. intros c h w; unfold call; simpl. destruct (f w); reflexivity. Qed.

Lemma hf_bind {A B} (m : job W A) (k : A -> job W B) :
  hist_frame m -> (forall a, hist_frame (k a)) -> hist_frame (jbind m k).
Proof.
  intros Hm Hk c h w; unfold jbind. rewrite (Hm c h w).
  destruct (m (JState c [] w)) as [[a|e] [c' h' w']]; simpl; [|reflexivity].
  rewrite (Hk a c' (h' ++ h) w'), (Hk a c' h' w').
  destruct (k a (JState c' [] w')) as [r [c'' h'' w'']]; simpl. now rewrite app_assoc.
Qed.

Lemma hf_swallow (body : job W unit) : hist_frame body -> hist_frame (swallow body).
Proof.
  intros Hb c h w; unfold swallow. rewrite (Hb c h w).
  destruct (body (JState c [] w)) as [[a|e] [c' h' w']]; reflexivity.
Qed.

(** What [render_job] does, does not depend on the values seen before. *)
Lemma render_hist (df : frame F) : hist_frame (render_job eng df).
Proof.
  unfold render_job, stage.
  repeat (cbv beta zeta;
          match goal with
          | |- hist_frame (jbind _ _) => apply hf_bind; [|intros]
          | |- hist_frame (swallow _) => apply hf_swallow
          | |- hist_frame (write _) => apply hf_write
          | |- hist_frame (call _) => apply hf_call
          | |- hist_frame read => apply hf_read
          end).
Qed.

(** The status at the end of [generate_job] is the one that
    [generate_visualizations] gives with [render_job] for its [render]. *)
Lemma generate_job_status (fs : filesystem) (filepath : Path)
    (st : status) (h : list status) (w0 : W) :
  cur (snd (generate_job lib eng fs filepath (JState st h w0)))
  = generate_visualizations lib fs (render_of eng w0) filepath st.
Proof.
  unfold generate_job, generate_visualizations, render_of, finally, handle.
  do 4 (rewrite (jbind_ok _ _ _ _ tt) by reflexivity). cbn [cur seen world].
  destruct (load_data lib fs filepath) as [df|e].
  - rewrite (jbind_ok _ _ _ _ df) by reflexivity.
    do 2 (rewrite (jbind_ok _ _ _ _ tt) by reflexivity). cbn [cur seen world].
    rewrite render_hist.
    match goal with
    | |- context [render_job eng df ?s] => destruct (render_job eng df s) as [[[]|e] [c' h' w']]
    end; reflexivity.
  - rewrite (jbind_raise _ _ _ _ e) by reflexivity. reflexivity.
Qed.

End JobFacts.

Section RunFacts.

Context {F W : Type} (lib : library F) (eng : engine F W).

(** X9: a run never raises and always ends with [running] false.  It ends
    without an error exactly when the progress is 100; then the output
    directory is the one of the session and the message counts the charts
    and tables listed in the status.  When it ends with an error, the
    message is [Error: ] and the text of the exception, and the exception
    came from loading the data, from [mkdir] or from a [glob] after the last
    step: an exception of a function of [visualization_engine] never
    reaches the status. *)
Theorem run_outcome (fs : filesystem) (filepath : Path)
    (st : status) (h : list status) (w0 : W) :
  exists s,
    generate_job lib eng fs filepath (JState st h w0) = (Ok tt, s)
    /\ running (cur s) = false
    /\ (error (cur s) = None <-> progress (cur s) = 100%Z)
    /\ (error (cur s) = None ->
        output_dir (cur s) = Some (session_dir (strftime_now eng w0))
        /\ message (cur s)
           = py "Complete! Generated " ++ decimal (List.length (charts (cur s)))
             ++ py " charts and " ++ decimal (List.length (tables (cur s))) ++ py " tables")
    /\ (forall m,
          error (cur s) = Some m ->
          message (cur s) = py "Error: " ++ m
          /\ ((exists e, load_data lib fs filepath = Raise e /\ exn_str e = m)
              \/ (exists e d w w', mkdir eng d w = (Raise e, w') /\ exn_str e = m)
              \/ (exists e d pat w w', glob eng d pat w = (Raise e, w') /\ exn_str e = m))).
Proof.
  destruct (generate_run lib eng fs filepath st h w0) as (ws & wf & Ho & ->).
  eexists; split; [reflexivity|]. cbn [cur].
  destruct Ho.
  - split; [reflexivity|]. split; [split; intros H0; discriminate H0|].
    split; [intros H0; discriminate H0|].
    intros m Hm. injection Hm as <-. split; [reflexivity|]. left; eauto.
  - split; [reflexivity|]. split; [split; intros H1; discriminate H1|].
    split; [intros H1; discriminate H1|].
    intros m Hm. injection Hm as <-. split; [reflexivity|]. right; left; eauto 6.
  - split; [reflexivity|]. split; [split; intros H2; discriminate H2|].
    split; [intros H2; discriminate H2|].
    intros m Hm. injection Hm as <-. split; [reflexivity|]. right; right; eauto 7.
  - split; [reflexivity|]. split; [split; intros H3; discriminate H3|].
    split; [intros H3; discriminate H3|].
    intros m Hm. injection Hm as <-. split; [reflexivity|]. right; right; eauto 7.
  - split; [reflexivity|]. split; [split; reflexivity|].
    split; [intros _; split; reflexivity|].
    intros m Hm. discriminate Hm.
Qed.

Lemma trace_scan (fs : filesystem) (filepath : Path) (st : status) (w0 : W) :
  exists ws, outcome lib eng fs filepath w0 ws /\ trace lib eng fs filepath st w0 = scan ws st.
Proof.
  unfold trace.
  destruct (generate_run lib eng fs filepath st [] w0) as (ws & wf & Ho & ->).
  exists ws. split; [assumption|]. cbn [snd seen]. now rewrite app_nil_r, rev_involutive.
Qed.

Ltac progress_list :=
  match goal with
  | |- StronglySorted Z.le ?l =>
      let l' := eval vm_compute in l in
      change l with l'; repeat constructor; lia
  | |- Forall _ ?l => repeat constructor; cbn; lia
  end.

(** X10: what a client that polls the status sees during a run.  The first
    assignment sets [running]; from the second one on the progress is
    between 5 and 100 and never goes down; [running] stays true until the
    last assignment, which sets it to false. *)
Theorem progress_never_decreases (fs : filesystem) (filepath : Path) (st : status) (w0 : W) :
  exists first rest,
    trace lib eng fs filepath st w0 = first :: rest
    /\ first = set_running true st
    /\ StronglySorted Z.le (map progress rest)
    /\ Forall (fun p => (5 <= p <= 100)%Z) (map progress rest)
    /\ Forall (fun t => running t = true) (removelast rest)
    /\ running (last rest first) = false.
Proof.
  destruct (trace_scan fs filepath st w0) as (ws & Ho & ->).
  destruct Ho; (eexists _, _; split; [reflexivity|]; split; [reflexivity|]);
    (split; [progress_list|]); (split; [progress_list|]);
    (split; [repeat constructor | reflexivity]).
Qed.

Lemma truthy_session (timestamp : str) :
  truthy_dir (Some (session_dir timestamp)) = Some (session_dir timestamp).
Proof.
  unfold session_dir.
  remember (py "thesis_visualizations/session_") as p eqn:Ep.
  vm_compute in Ep. subst p. reflexivity.
Qed.

(** X11: which directory the chart and download routes serve from after a
    run.  A run that fails before its directory is made leaves them as they
    were, so they go on serving the files of the run before; once [mkdir]
    has succeeded they serve from the directory of the new session, whether
    the run then completes or not.  After [reset] they answer 404. *)
Theorem served_directory (fs : filesystem) (filepath : Path)
    (st : status) (h : list status) (w0 : W) (name : str) :
  exists s,
    generate_job lib eng fs filepath (JState st h w0) = (Ok tt, s)
    /\ (forall e, load_data lib fs filepath = Raise e ->
        get_chart name (cur s) = get_chart name st
        /\ download_file name (cur s) = download_file name st)
    /\ (forall df e w1,
          load_data lib fs filepath = Ok df ->
          mkdir eng (session_dir (strftime_now eng w0)) w0 = (Raise e, w1) ->
          get_chart name (cur s) = get_chart name st
          /\ download_file name (cur s) = download_file name st)
    /\ (forall df w1,
          load_data lib fs filepath = Ok df ->
          mkdir eng (session_dir (strftime_now eng w0)) w0 = (Ok tt, w1) ->
          get_chart name (cur s)
          = SendFromDirectory (session_dir (strftime_now eng w0)) name false
          /\ download_file name (cur s)
             = SendFromDirectory (session_dir (strftime_now eng w0)) name true)
    /\ get_chart name (fst (reset (cur s))) = Text (py "No output directory") 404
    /\ download_file name (fst (reset (cur s))) = Text (py "No output directory") 404.
Proof.
  destruct (generate_run lib eng fs filepath st h w0) as (ws & wf & Ho & ->).
  eexists; split; [reflexivity|]. cbn [cur].
  split; [|split; [|split; [|split; reflexivity]]].
  - intros e He. destruct Ho; try congruence. split; reflexivity.
  - intros df e w1 Hl Hm. destruct Ho; try congruence; split; reflexivity.
  - intros df w1 Hl Hm. unfold get_chart, download_file.
    destruct Ho; try congruence;
      match goal with
      | |- context [output_dir (final_status ?ws st)] =>
          replace (output_dir (final_status ws st))
            with (Some (session_dir (strftime_now eng w0))) by reflexivity
      end; rewrite truthy_session; split; reflexivity.
Qed.

End RunFacts.

(** ** upload_file *)


(** ** The further properties on sample files *)

(** A run on a log of one record, with an engine whose temperature analysis
    fails: the two calls after it in the same step are left out, the other
    steps run, and the run completes. *)
Example sample_run :
  cur (snd (generate_job Sample.lib SampleRun.eng
              (Sample.text_file (py "log.txt") SampleRun.log) SampleRun.log_path
              (JState Sample.Ready [] [])))
  = Status false 100 (py "Complete! Generated 9 charts and 3 tables")
      (Some (py "thesis_visualizations/session_20240101_120000"))
      [py "linear.png"; py "bars.png"; py "pies.png"; py "model_language.png";
       py "category_language.png"; py "dashboard.png"; py "analysis.png";
       py "summary.png"; py "detailed.png"]
      [py "comparison.csv"; py "temperature.csv"; py "categories.csv"]
      None.
Proof. vm_compute. reflexivity. Qed.

(** The frame of the sample log. *)
Lemma frame_rows_valid_sample :
  frame_rows
    (DataFrame [@PDict Sample.dec
                  [(py "model", PStr (py "m")); (py "category", PStr (py "c"));
                   (py "success", PInt 1)]]) <> []
  /\ Forall (fun row => exists d, row = PDict d /\ well_formed d
                        /\ dict_has (py "model") d = true
                        /\ dict_has (py "category") d = true)
       (frame_rows
          (DataFrame [@PDict Sample.dec
                        [(py "model", PStr (py "m")); (py "category", PStr (py "c"));
                         (py "success", PInt 1)]]))
  /\ exists content,
       read_text (Sample.text_file (py "log.txt") SampleRun.log) (py "log.txt") = Ok content
       /\ List.length
            (frame_rows
               (DataFrame [@PDict Sample.dec
                             [(py "model", PStr (py "m")); (py "category", PStr (py "c"));
                              (py "success", PInt 1)]]))
          <= List.length (blocks content).
Proof.
  apply (frame_rows_valid Sample.lib
           (Sample.text_file (py "log.txt") SampleRun.log) (py "log.txt")).
  vm_compute; reflexivity.
Defined.

(** A log of one line of white space: the error of a text log. *)
Lemma text_log_outcomes_sample :
  load_data Sample.lib (Sample.text_file (py "log.txt") (py " \n")) SampleRun.log_path
  = Raise (Exn ValueError (py "Failed to parse text file")).
Proof.
  destruct (text_log_outcomes Sample.lib (Sample.text_file (py "log.txt") (py " \n"))
              SampleRun.log_path eq_refl) as (_ & _ & H).
  apply (H (py " \n")); vm_compute; reflexivity.
Defined.

(** Two logs of one record each. *)
Lemma records_concat_sample :
  for_blocks Sample.lib
    (blocks (py "Model: a\nCategory: b" ++ [LF; LF] ++ py "Model: c\nCategory: d")) []
  = Ok ([[(py "model", PStr (py "a")); (py "category", PStr (py "b"))]]
        ++ [[(py "model", PStr (py "c")); (py "category", PStr (py "d"))]]).
Proof.
  apply (records_concat Sample.lib (py "Model: a\nCategory: b") (py "Model: c\nCategory: d"));
    vm_compute; reflexivity.
Defined.

(** [data.CSV], saved under a path with the suffix [.CSV]. *)
Lemma allowed_file_agrees_with_loader_sample :
  allowed_file (py "data" ++ DOT :: py "CSV")
  = Ok (supported {| path_str := py "uploads/data.CSV"; suffix := py ".CSV" |}).
Proof.
  apply (allowed_file_agrees_with_loader Sample.lib
           (Sample.text_file (py "uploads/data.CSV") (py "model,category"))
           {| path_str := py "uploads/data.CSV"; suffix := py ".CSV" |}
           (py "data") (py "CSV")).
  - reflexivity.
  - vm_compute. intros [H|[H|[H|[]]]]; discriminate H.
Defined.

(** A log that is not on the disk: the run ends with the error of a text
    log. *)
Lemma run_outcome_sample :
  message (cur (snd (generate_job Sample.lib SampleRun.eng
                       (Sample.text_file (py "other.txt") SampleRun.log) SampleRun.log_path
                       (JState Sample.Ready [] []))))
  = py "Error: " ++ py "Failed to parse text file".
Proof.
  destruct (run_outcome Sample.lib SampleRun.eng
              (Sample.text_file (py "other.txt") SampleRun.log) SampleRun.log_path
              Sample.Ready [] []) as (s & Hrun & _ & _ & _ & Herr).
  pose proof (f_equal snd Hrun) as Hs. cbn [snd] in Hs.
  etransitivity; [exact (f_equal (fun x => message (cur x)) Hs)|]. cbv beta.
  apply (Herr (py "Failed to parse text file")).
  rewrite <- Hs. vm_compute. reflexivity.
Defined.

(** After the sample run the chart route serves from the directory of the
    session. *)
Lemma served_directory_sample :
  get_chart (py "linear.png")
    (cur (snd (generate_job Sample.lib SampleRun.eng
                 (Sample.text_file (py "log.txt") SampleRun.log) SampleRun.log_path
                 (JState Sample.Ready [] []))))
  = SendFromDirectory (session_dir (strftime_now SampleRun.eng [])) (py "linear.png") false.
Proof.
  destruct (served_directory Sample.lib SampleRun.eng
              (Sample.text_file (py "log.txt") SampleRun.log) SampleRun.log_path
              Sample.Ready [] [] (py "linear.png")) as (s & Hrun & _ & _ & H & _).
  pose proof (f_equal snd Hrun) as Hs. cbn [snd] in Hs.
  etransitivity; [exact (f_equal (fun x => get_chart (py "linear.png") (cur x)) Hs)|]. cbv beta.
  refine (proj1 (H (DataFrame [PDict [(py "model", PStr (py "m")); (py "category", PStr (py "c"));
                                      (py "success", PInt 1)]]) [] _ _)).
  - vm_compute. reflexivity.
  - reflexivity.
Defined.

